(** * LockTab: sorters, tab-list projection and range toggle

    A shallow embedding of [app/js/LockTab.tsx]: the four sorters of the
    lock-tab panel, the sort selection state with its persisted key, the
    projection of the raw tab array into the displayed order, and the
    click / shift-click handler that issues lock and unlock requests.

    Conventions of the embedding.
    - A JavaScript number is an integer ([Z]) or [NaN]; every number the
      component handles (tab ids, window ids, indices, timestamps) is an
      integer in the range where doubles are exact.
    - A [chrome.tabs.Tab] is an object: besides the fields the component
      reads it carries its identity [oid], which is what [===] and
      [Array.prototype.indexOf] compare.
    - Arrays that the component sorts in place live in a store of arrays
      indexed by reference.
    - [settings.isTabLocked] and [settings.isTabManuallyLockable] belong to
      the settings module and are parameters of the development. *)

From Stdlib Require Import ZArith List Bool Lia.
From stdpp Require Import base option gmap strings list fin_maps sorting.

Local Open Scope Z_scope.

(** ** JavaScript numbers and array primitives *)

Module JS.

(** The result of a numeric expression. *)
Inductive number : Type :=
| Num (z : Z)
| NaN.

(** [ToNumber] on a value that is a number or [undefined]. *)
Definition to_number (v : option Z) : number :=
  match v with
  | Some z => Num z
  | None => NaN
  end.

(** [x - y] *)
Definition sub (x y : number) : number :=
  match x, y with
  | Num a, Num b => Num (a - b)
  | _, _ => NaN
  end.

(** [x * y] *)
Definition mul (x y : number) : number :=
  match x, y with
  | Num a, Num b => Num (a * b)
  | _, _ => NaN
  end.

(** Unary minus, [-x]. *)
Definition neg (x : number) : number :=
  match x with
  | Num a => Num (- a)
  | NaN => NaN
  end.

(** [x < 0], false on [NaN]. *)
Definition is_negative (x : number) : bool :=
  match x with
  | Num a => a <? 0
  | NaN => false
  end.

(** [Array.prototype.slice(start, end)]: a negative bound counts from the
    end of the array, both bounds are clamped to [0 .. length]. *)
Definition relative_index (len k : Z) : Z :=
  if k <? 0 then Z.max (len + k) 0 else Z.min k len.

Definition slice {A : Type} (l : list A) (start fin : Z) : list A :=
  let len := Z.of_nat (length l) in
  let k := relative_index len start in
  let final := relative_index len fin in
  take (Z.to_nat (final - k)) (drop (Z.to_nat k) l).

(** [Array.prototype.find]. *)
Definition find {A : Type} (p : A -> bool) (l : list A) : option A :=
  List.find p l.

(** [SortCompare]: the comparator's result, with [NaN] read as [+0]. *)
Definition sort_compare {A : Type} (comparefn : A -> A -> number) (x y : A) : Z :=
  match comparefn x y with
  | Num v => v
  | NaN => 0
  end.

(** [Array.prototype.sort(comparefn)] is a stable sort; it is modelled by
    the stable insertion sort: an element moves behind the elements that
    follow it only while the comparator says it is strictly greater. *)
Fixpoint sort_insert {A : Type} (comparefn : A -> A -> number) (x : A) (l : list A) : list A :=
  match l with
  | [] => [x]
  | y :: l' =>
      if 0 <? sort_compare comparefn x y
      then y :: sort_insert comparefn x l'
      else x :: y :: l'
  end.

Fixpoint sort {A : Type} (comparefn : A -> A -> number) (l : list A) : list A :=
  match l with
  | [] => []
  | x :: l' => sort_insert comparefn x (sort comparefn l')
  end.

End JS.

Import JS.

(** ** Tab records *)

(** The fields of [chrome.tabs.Tab] read by the component, and the identity
    of the object. *)
Record Tab : Type := mkTab {
  oid : positive;
  id : option Z;
  index : Z;
  windowId : Z
}.

(** [a === b] on tab objects. *)
Definition same_object (a b : Tab) : bool := Pos.eqb (oid a) (oid b).

(** [Array.prototype.indexOf] on an array of tab objects, searching from
    position [i]: the first position holding the very object, or [-1]. *)
Fixpoint indexOf_from (l : list Tab) (x : Tab) (i : Z) : Z :=
  match l with
  | [] => -1
  | y :: l' => if same_object y x then i else indexOf_from l' x (i + 1)
  end.

Definition indexOf (l : list Tab) (x : Tab) : Z := indexOf_from l x 0.

(** [tabTimes]: an object used as a map from tab id to a timestamp. A key
    that is absent reads as [undefined]. *)
Abbreviation TabTimes := (gmap Z Z).

(** ** The sorter registry *)

(** The four sorter objects of the module. The registry is closed, so the
    identity of a sorter object ([nextSorter === currSorter]) is the
    equality of this type. *)
Inductive Sorter : Type :=
| ChronoSorter
| ReverseChronoSorter
| TabOrderSorter
| ReverseTabOrderSorter.

#[global] Instance Sorter_eq_dec : EqDecision Sorter.
Proof. solve_decision. Defined.

Definition key (s : Sorter) : string :=
  match s with
  | ChronoSorter => "chrono"
  | ReverseChronoSorter => "reverseChrono"
  | TabOrderSorter => "tabOrder"
  | ReverseTabOrderSorter => "reverseTabOrder"
  end.

Definition DEFAULT_SORTER : Sorter := TabOrderSorter.

Definition Sorters : list Sorter :=
  [TabOrderSorter; ReverseTabOrderSorter; ChronoSorter; ReverseChronoSorter].

(** [TabOrderSorter.sort]; the third argument is not used. *)
Definition TabOrderSorter_sort (tabA tabB : option Tab) : number :=
  match tabA, tabB with
  | Some a, Some b =>
      if windowId a =? windowId b
      then sub (Num (index a)) (Num (index b))
      else sub (Num (windowId a)) (Num (windowId b))
  | _, _ => Num 0
  end.

Definition ReverseTabOrderSorter_sort (tabA tabB : option Tab) (tabTimes : TabTimes) : number :=
  mul (Num (-1)) (TabOrderSorter_sort tabA tabB).

(** [tab.id == null ? -1 : tabTimes[tab.id]]: a number or [undefined]. *)
Definition lastModified (tabTimes : TabTimes) (tab : Tab) : option Z :=
  match id tab with
  | None => Some (-1)
  | Some i => tabTimes !! i
  end.

(** ** The settings module *)

(** A call of [settings.lockTab(id)] or [settings.unlockTab(id)]. *)
Inductive Request : Type :=
| LockTab (tabId : Z)
| UnlockTab (tabId : Z).

(** Modelled from the spec: the settings module, which is not part of this
    file. It is a synchronous store: the preference [lockTabSortOrder] is
    a cell holding a string or null, and the lock and unlock calls are fire
    and forget, so the store records them in the order they are made. *)
Record Settings : Type := mkSettings {
  lockTabSortOrder : option string;
  requests : list Request
}.

(** Modelled from the spec: [settings.get("lockTabSortOrder")], a
    synchronous read of the preference. *)
Definition settings_get (s : Settings) : option string := lockTabSortOrder s.

(** Modelled from the spec: [settings.set("lockTabSortOrder", v)], a
    synchronous overwrite of the preference. *)
Definition settings_set (v : option string) (s : Settings) : Settings :=
  {| lockTabSortOrder := v; requests := requests s |}.

(** Modelled from the spec: [settings.lockTab(tabId)], fire and forget. *)
Definition settings_lockTab (tabId : Z) (s : Settings) : Settings :=
  {| lockTabSortOrder := lockTabSortOrder s; requests := requests s ++ [LockTab tabId] |}.

(** Modelled from the spec: [settings.unlockTab(tabId)], fire and forget. *)
Definition settings_unlockTab (tabId : Z) (s : Settings) : Settings :=
  {| lockTabSortOrder := lockTabSortOrder s; requests := requests s ++ [UnlockTab tabId] |}.

(** ** The state of the component *)

(** The hooks of [LockTab] ([sortOrder], [currSorter], [isSortDropdownOpen],
    [lastSelectedTabRef.current]) together with the settings module the
    handlers read and write. *)
Record State : Type := mkState {
  settings : Settings;
  sortOrder : option string;
  currSorter : Sorter;
  isSortDropdownOpen : bool;
  lastSelectedTabRef : option Tab
}.

(** The initial value of [currSorter], computed from the initial
    [sortOrder]. *)
Definition initialSorter (sortOrder : option string) : Sorter :=
  let sorter :=
    match sortOrder with
    | None => Some DEFAULT_SORTER
    | Some k => find (fun s => String.eqb (key s) k) Sorters
    end in
  match sorter with
  | None => DEFAULT_SORTER
  | Some s => s
  end.

(** The state after the first render. *)
Definition mount (s : Settings) : State :=
  let sortOrder := settings_get s in
  {| settings := s;
     sortOrder := sortOrder;
     currSorter := initialSorter sortOrder;
     isSortDropdownOpen := false;
     lastSelectedTabRef := None |}.

Definition clickSorter (nextSorter : Sorter) (st : State) : State :=
  if decide (nextSorter = currSorter st)
  then
    {| settings := settings st;
       sortOrder := sortOrder st;
       currSorter := currSorter st;
       isSortDropdownOpen := false;
       lastSelectedTabRef := lastSelectedTabRef st |}
  else
    {| settings :=
         match settings_get (settings st) with
         | Some _ => settings_set (Some (key nextSorter)) (settings st)
         | None => settings st
         end;
       sortOrder := sortOrder st;
       currSorter := nextSorter;
       isSortDropdownOpen := false;
       lastSelectedTabRef := lastSelectedTabRef st |}.

(** [handleChangeSaveSortOrder], applied to [event.target.checked]. *)
Definition handleChangeSaveSortOrder (checked : bool) (st : State) : State :=
  if checked
  then
    {| settings := settings_set (Some (key (currSorter st))) (settings st);
       sortOrder := Some (key (currSorter st));
       currSorter := currSorter st;
       isSortDropdownOpen := isSortDropdownOpen st;
       lastSelectedTabRef := lastSelectedTabRef st |}
  else
    {| settings := settings_set None (settings st);
       sortOrder := None;
       currSorter := currSorter st;
       isSortDropdownOpen := isSortDropdownOpen st;
       lastSelectedTabRef := lastSelectedTabRef st |}.

(** ** The range toggle *)

(** The value of [tabsToToggle] before the lockability filter. *)
Definition tabsToToggle (sortedTabs : list Tab) (lastSelected : option Tab)
    (tab : Tab) (multiselect : bool) : list Tab :=
  match multiselect, lastSelected with
  | true, Some lastTab =>
      let lastSelectedTabIndex := indexOf sortedTabs lastTab in
      if 0 <=? lastSelectedTabIndex
      then
        let tabIndex := indexOf sortedTabs tab in
        slice sortedTabs
          (Z.min tabIndex lastSelectedTabIndex)
          (Z.max tabIndex lastSelectedTabIndex + 1)
      else [tab]
  | _, _ => [tab]
  end.

(** The callback given to [forEach]. *)
Definition toggleOne (selected : bool) (s : Settings) (tab : Tab) : Settings :=
  match id tab with
  | None => s
  | Some i => if selected then settings_lockTab i s else settings_unlockTab i s
  end.

(** ** The store of arrays *)

(** References to arrays, and the arrays they hold. *)
Abbreviation ArrayStore := (gmap positive (list Tab)).

(** Allocation of a new array. *)
Definition array_alloc (h : ArrayStore) (xs : list Tab) : ArrayStore * positive :=
  let r := fresh (dom h) in (<[r := xs]> h, r).

(** [arr.slice()]: a new array with the same elements. *)
Definition array_copy (h : ArrayStore) (arr : positive) : option (ArrayStore * positive) :=
  xs ← h !! arr; Some (array_alloc h xs).

(** [arr.sort(comparefn)]: sorts the array in place and returns it. *)
Definition array_sort (h : ArrayStore) (arr : positive)
    (comparefn : Tab -> Tab -> number) : option (ArrayStore * positive) :=
  xs ← h !! arr; Some (<[arr := sort comparefn xs]> h, arr).

(** ** The claims of the specification, in its own words *)

(** The first position of an object in the ordered list, when it occurs. *)
Fixpoint position (l : list Tab) (x : Tab) : option nat :=
  match l with
  | [] => None
  | y :: l' => if same_object y x then Some 0%nat else S <$> position l' x
  end.

(** The contiguous run of the list between two positions, both included. *)
Definition contiguous (l : list Tab) (i j : nat) : list Tab :=
  take (Nat.max i j - Nat.min i j + 1) (drop (Nat.min i j) l).

(** The requests a toggle must issue for an affected set. *)
Definition expected_requests (lockable : Tab -> bool) (selected : bool)
    (tabs : list Tab) : list Request :=
  omap (fun t =>
          if lockable t
          then (fun i => if selected then LockTab i else UnlockTab i) <$> id t
          else None)
       tabs.

(** The last-modified time the specification gives a tab: its entry in
    [tabTimes], and [-1] when there is none. *)
Definition timestamp_or_oldest (tabTimes : TabTimes) (tab : Tab) : Z :=
  match id tab with
  | None => -1
  | Some i => default (-1) (tabTimes !! i)
  end.

(** The lexicographic order on [(windowId, index)]. *)
Definition window_index_lt (a b : Tab) : Prop :=
  windowId a < windowId b \/ (windowId a = windowId b /\ index a < index b).

(** [a] sorts before [b] under a comparator: the comparator is negative. *)
Definition sorts_before (comparefn : option Tab -> option Tab -> number)
    (a b : Tab) : Prop :=
  is_negative (comparefn (Some a) (Some b)) = true.

(** The tab has no id, or [tabTimes] has an entry for its id. *)
Definition has_entry (tabTimes : TabTimes) (tab : Tab) : bool :=
  match id tab with
  | None => true
  | Some i => match tabTimes !! i with Some _ => true | None => false end
  end.

(** ** The dropdown *)

Definition toggleSortDropdown (st : State) : State :=
  {| settings := settings st;
     sortOrder := sortOrder st;
     currSorter := currSorter st;
     isSortDropdownOpen := negb (isSortDropdownOpen st);
     lastSelectedTabRef := lastSelectedTabRef st |}.

(** [handleWindowClick]: [dropdownMounted] is [dropdownRef.current != null],
    [targetIsNode] is [event.target instanceof Node], and [contains] is
    [dropdownRef.current.contains(event.target)]. *)
Definition handleWindowClick (dropdownMounted targetIsNode contains : bool)
    (st : State) : State :=
  if isSortDropdownOpen st && dropdownMounted && targetIsNode && negb contains
  then
    {| settings := settings st;
       sortOrder := sortOrder st;
       currSorter := currSorter st;
       isSortDropdownOpen := false;
       lastSelectedTabRef := lastSelectedTabRef st |}
  else st.

(** The [checked] property of the save-sort-order checkbox. *)
Definition checkbox_checked (st : State) : bool :=
  match sortOrder st with
  | Some _ => true
  | None => false
  end.

(** The user's interactions with the panel, one constructor per handler. *)
Inductive Event : Type :=
| ClickSorter (nextSorter : Sorter)
| ChangeSaveSortOrder (checked : bool)
| ToggleTab (sortedTabs : list Tab) (tab : Tab) (selected multiselect : bool)
| ToggleSortDropdown
| WindowClick (dropdownMounted targetIsNode contains : bool).

(** ** The locked rows *)

(** The options object built from [tabLockData] for [isTabLocked]; a key
    that [tabLockData] lacks reads as [undefined]. *)
Record LockOptions (V : Type) : Type := mkLockOptions {
  filterAudio : option V;
  filterGroupedTabs : option V;
  lockedIds : option V;
  whitelist : option V
}.

Arguments mkLockOptions {V}.

Definition lockOptions {V : Type} (tabLockData : gmap string V) : LockOptions V :=
  mkLockOptions
    (tabLockData !! "filterAudio"%string)
    (tabLockData !! "filterGroupedTabs"%string)
    (tabLockData !! "lockedIds"%string)
    (tabLockData !! "whitelist"%string).

(** The memoised [lockedTabIds]; [isTabLocked] is the predicate of the
    module [tabUtil], a parameter here. The set holds values of [tab.id],
    [undefined] included. *)
Definition lockedTabIds {V : Type} (isTabLocked : Tab -> LockOptions V -> bool)
    (sortedTabs : list Tab) (tabLockData : option (gmap string V)) : gset (option Z) :=
  match tabLockData with
  | None => ∅
  | Some d =>
      list_to_set
        (List.map id
           (List.filter (fun tab => isTabLocked tab (lockOptions d)) sortedTabs))
  end.

(** The [isLocked] property of the row of a tab, [lockedTabIds.has(tab.id)]. *)
Definition rowIsLocked {V : Type} (isTabLocked : Tab -> LockOptions V -> bool)
    (sortedTabs : list Tab) (tabLockData : option (gmap string V)) (tab : Tab) : bool :=
  bool_decide (id tab ∈ lockedTabIds isTabLocked sortedTabs tabLockData).

(** The keys of the lock policy in the sync storage. *)
Definition watchedKeys : list string :=
  ["filterAudio"; "filterGroupedTabs"; "lockedIds"; "whitelist"]%string.

(** [handleChanged]: [changes] maps each changed key to its change; the
    result tells whether the query [tabLock] is invalidated. *)
Definition handleChanged {C : Type} (changes : gmap string C) (areaName : string) : bool :=
  String.eqb areaName "sync" &&
  existsb (fun key => bool_decide (is_Some (changes !! key))) watchedKeys.

(** ** Orders on tabs *)

(** The lexicographic order on [(windowId, index)], equality included. *)
Definition window_index_le (a b : Tab) : Prop :=
  windowId a < windowId b \/ (windowId a = windowId b /\ index a <= index b).

(** The place of a tab in the browser: its window and its index there. *)
Definition tab_place (t : Tab) : Z * Z := (windowId t, index t).

(** Unlocked tabs first, then by timestamp. *)
Definition chrono_le (locked : Tab -> bool) (tabTimes : TabTimes) (a b : Tab) : Prop :=
  (locked a = false /\ locked b = true) \/
  (locked a = locked b /\
   timestamp_or_oldest tabTimes a <= timestamp_or_oldest tabTimes b).

(** No locked tab before an unlocked one. *)
Definition locked_last (locked : Tab -> bool) (a b : Tab) : Prop :=
  locked a = true -> locked b = true.

(** ** Sample data *)

Module Sample.

Definition T1 : Tab := {| oid := 1; id := Some 11; index := 0; windowId := 1 |}.
Definition T2 : Tab := {| oid := 2; id := Some 12; index := 1; windowId := 1 |}.
Definition T3 : Tab := {| oid := 3; id := Some 13; index := 0; windowId := 2 |}.

(** The tab [T1] as a later query returns it: the same tab id, another
    object. *)
Definition T1' : Tab := {| oid := 4; id := Some 11; index := 0; windowId := 1 |}.

(** A tab whose id is not known yet. *)
Definition T0 : Tab := {| oid := 5; id := None; index := 2; windowId := 1 |}.

Definition never (_ : Tab) : bool := false.
Definition always (_ : Tab) : bool := true.

(** Lockable unless it is the first tab of its window. *)
Definition notFirst (t : Tab) : bool := negb (index t =? 0).

(** [T1] has no entry. *)
Definition times : TabTimes := {[ 12 := 500; 13 := 200 ]}.

Definition store : ArrayStore := {[ 1%positive := [T3; T1; T2] ]}.

(** A stored policy, with a key that the lock policy does not read. *)
Definition lockData : gmap string (list Z) :=
  {[ "lockedIds"%string := [12]; "minutesInactive"%string := [20] ]}.

(** The policy of the sample: a tab is locked when its id is listed. *)
Definition listed (t : Tab) (o : LockOptions (list Z)) : bool :=
  match id t, lockedIds _ o with
  | Some i, Some ids => existsb (Z.eqb i) ids
  | _, _ => false
  end.

Definition st0 : State :=
  {| settings := {| lockTabSortOrder := None; requests := [] |};
     sortOrder := None;
     currSorter := TabOrderSorter;
     isSortDropdownOpen := true;
     lastSelectedTabRef := Some T1 |}.

End Sample.

Section LockTab.

(** The predicates of the settings module. *)
Variable settings_isTabLocked : Tab -> bool.
Variable settings_isTabManuallyLockable : Tab -> bool.

Definition ChronoSorter_sort (tabA tabB : option Tab) (tabTimes : TabTimes) : number :=
  match tabA, tabB with
  | Some a, Some b =>
      if settings_isTabLocked a && negb (settings_isTabLocked b) then Num 1
      else if negb (settings_isTabLocked a) && settings_isTabLocked b then Num (-1)
      else
        let lastModifiedA := lastModified tabTimes a in
        let lastModifiedB := lastModified tabTimes b in
        sub (to_number lastModifiedA) (to_number lastModifiedB)
  | _, _ => Num 0
  end.

Definition ReverseChronoSorter_sort (tabA tabB : option Tab) (tabTimes : TabTimes) : number :=
  mul (Num (-1)) (ChronoSorter_sort tabA tabB tabTimes).

(** [s.sort(tabA, tabB, tabTimes)] *)
Definition Sorter_sort (s : Sorter) (tabA tabB : option Tab) (tabTimes : TabTimes) : number :=
  match s with
  | ChronoSorter => ChronoSorter_sort tabA tabB tabTimes
  | ReverseChronoSorter => ReverseChronoSorter_sort tabA tabB tabTimes
  | TabOrderSorter => TabOrderSorter_sort tabA tabB
  | ReverseTabOrderSorter => ReverseTabOrderSorter_sort tabA tabB tabTimes
  end.

(** The memoised [sortedTabs]: [tabs] is the reference to the array the
    tab query returned, or null while the query is pending. The result is
    the reference to the array that is displayed. *)
Definition sortedTabs (h : ArrayStore) (tabs : option positive)
    (currSorter : Sorter) (tabTimes : TabTimes) : option (ArrayStore * positive) :=
  match tabs with
  | None => Some (array_alloc h [])
  | Some arr =>
      '(h1, copy) ← array_copy h arr;
      array_sort h1 copy
        (fun tabA tabB => Sorter_sort currSorter (Some tabA) (Some tabB) tabTimes)
  end.

Definition handleToggleTab (sortedTabs : list Tab) (tab : Tab)
    (selected multiselect : bool) (st : State) : State :=
  let tabsToToggle := tabsToToggle sortedTabs (lastSelectedTabRef st) tab multiselect in
  {| settings :=
       fold_left (toggleOne selected)
         (List.filter settings_isTabManuallyLockable tabsToToggle)
         (settings st);
     sortOrder := sortOrder st;
     currSorter := currSorter st;
     isSortDropdownOpen := isSortDropdownOpen st;
     lastSelectedTabRef := Some tab |}.

(** The handler an interaction runs. *)
Definition handleEvent (st : State) (e : Event) : State :=
  match e with
  | ClickSorter nextSorter => clickSorter nextSorter st
  | ChangeSaveSortOrder checked => handleChangeSaveSortOrder checked st
  | ToggleTab sortedTabs tab selected multiselect =>
      handleToggleTab sortedTabs tab selected multiselect st
  | ToggleSortDropdown => toggleSortDropdown st
  | WindowClick dropdownMounted targetIsNode contains =>
      handleWindowClick dropdownMounted targetIsNode contains st
  end.

(** A session: the interactions in the order they happen. *)
Definition run (es : list Event) (st : State) : State :=
  fold_left handleEvent es st.

(** The sequence of tabs the table shows: the contents of the array
    [sortedTabs] returns. *)
Definition displayed (h : ArrayStore) (tabs : option positive)
    (currSorter : Sorter) (tabTimes : TabTimes) : option (list Tab) :=
  '(h', r) ← sortedTabs h tabs currSorter tabTimes; h' !! r.

(** ** Properties of the array primitives *)

Lemma mul_minus_one (x : number) : mul (Num (-1)) x = neg x.
Proof. destruct x as [z|]; simpl; [f_equal; lia | reflexivity]. Qed.

Lemma indexOf_from_position (l : list Tab) (x : Tab) (k : Z) :
  indexOf_from l x k =
  match position l x with
  | Some i => k + Z.of_nat i
  | None => -1
  end.
Proof.
  revert k. induction l as [|y l IH]; intros k; simpl; [reflexivity|].
  destruct (same_object y x); [simpl; lia|].
  rewrite IH. destruct (position l x); simpl; lia.
Qed.

Lemma indexOf_position (l : list Tab) (x : Tab) :
  indexOf l x = match position l x with Some i => Z.of_nat i | None => -1 end.
Proof.
  unfold indexOf. rewrite indexOf_from_position.
  destruct (position l x); lia.
Qed.

Lemma position_lt (l : list Tab) (x : Tab) (i : nat) :
  position l x = Some i -> (i < length l)%nat.
Proof.
  revert i. induction l as [|y l IH]; intros i; simpl; [discriminate|].
  destruct (same_object y x).
  - intros [= <-]. lia.
  - destruct (position l x) as [n|]; simpl; [|discriminate].
    intros [= <-]. specialize (IH n eq_refl). lia.
Qed.

Lemma position_same_object (l : list Tab) (x : Tab) (i : nat) :
  position l x = Some i -> exists y, l !! i = Some y /\ same_object y x = true.
Proof.
  revert i. induction l as [|y l IH]; intros i; simpl; [discriminate|].
  destruct (same_object y x) eqn:E.
  - intros [= <-]. exists y. split; [reflexivity | assumption].
  - destruct (position l x) as [n|]; simpl; [|discriminate].
    intros [= <-]. apply (IH n eq_refl).
Qed.

Lemma slice_in_range {A : Type} (l : list A) (a b : nat) :
  (a <= b <= length l)%nat ->
  slice l (Z.of_nat a) (Z.of_nat b) = take (b - a) (drop a l).
Proof.
  intros H. unfold slice, relative_index.
  destruct (Z.ltb_spec (Z.of_nat a) 0); [lia|].
  destruct (Z.ltb_spec (Z.of_nat b) 0); [lia|].
  rewrite !Z.min_l by lia.
  f_equal; [lia | f_equal; lia].
Qed.

(** ** Properties of the range toggle *)

Lemma tabsToToggle_single (sortedTabs : list Tab) (lastSelected : option Tab)
    (tab : Tab) (multiselect : bool) :
  multiselect = false \/ lastSelected = None \/
  (exists l, lastSelected = Some l /\ position sortedTabs l = None) ->
  tabsToToggle sortedTabs lastSelected tab multiselect = [tab].
Proof.
  intros [-> | [-> | (l & -> & Hl)]]; unfold tabsToToggle.
  - reflexivity.
  - destruct multiselect; reflexivity.
  - destruct multiselect; [|reflexivity].
    rewrite indexOf_position, Hl. reflexivity.
Qed.

Lemma tabsToToggle_range (sortedTabs : list Tab) (l tab : Tab) (i j : nat) :
  position sortedTabs l = Some i ->
  position sortedTabs tab = Some j ->
  tabsToToggle sortedTabs (Some l) tab true = contiguous sortedTabs i j.
Proof.
  intros Hi Hj. unfold tabsToToggle, contiguous.
  rewrite !indexOf_position, Hi, Hj.
  apply position_lt in Hi. apply position_lt in Hj.
  destruct (Z.leb_spec 0 (Z.of_nat i)); [|lia].
  replace (Z.min (Z.of_nat j) (Z.of_nat i)) with (Z.of_nat (Nat.min i j)) by lia.
  replace (Z.max (Z.of_nat j) (Z.of_nat i) + 1)
    with (Z.of_nat (Nat.max i j + 1)) by lia.
  rewrite slice_in_range by lia.
  f_equal. lia.
Qed.

Lemma forEach_requests (selected : bool) (tabs : list Tab) (s : Settings) :
  requests
    (fold_left (toggleOne selected)
       (List.filter settings_isTabManuallyLockable tabs) s) =
  requests s ++ expected_requests settings_isTabManuallyLockable selected tabs.
Proof.
  revert s. induction tabs as [|t tabs IH]; intros s; simpl.
  - symmetry. apply app_nil_r.
  - unfold expected_requests in *. simpl.
    destruct (settings_isTabManuallyLockable t); simpl; [|apply IH].
    rewrite IH. unfold toggleOne.
    destruct (id t) as [n|]; simpl; [|reflexivity].
    destruct selected; simpl; rewrite <- app_assoc; reflexivity.
Qed.

Lemma forEach_lockTabSortOrder (selected : bool) (tabs : list Tab) (s : Settings) :
  lockTabSortOrder (fold_left (toggleOne selected) tabs s) = lockTabSortOrder s.
Proof.
  revert s. induction tabs as [|t tabs IH]; intros s; simpl; [reflexivity|].
  rewrite IH. unfold toggleOne.
  destruct (id t); [destruct selected|]; reflexivity.
Qed.

(** ** The range toggle: the requests issued and the anchor *)

(** C1. [handleToggleTab] issues a lock request (when [selected]) or an
    unlock request (otherwise) exactly for the manually lockable tabs with
    a non-null id of the affected set, in the order of the list. The
    affected set is the target alone when the range modifier is off, when
    there is no last-selected tab, or when the last-selected object is not
    in the ordered list; when the last-selected object stands at position
    [i] and the target at position [j], it is the contiguous run from
    [min i j] to [max i j], both included. *)
Theorem handleToggleTab_requests (sortedTabs : list Tab) (tab : Tab)
    (selected multiselect : bool) (st : State) :
  (multiselect = false \/ lastSelectedTabRef st = None \/
   (exists l, lastSelectedTabRef st = Some l /\ position sortedTabs l = None) ->
   requests (settings (handleToggleTab sortedTabs tab selected multiselect st)) =
   requests (settings st) ++
   expected_requests settings_isTabManuallyLockable selected [tab]) /\
  (forall (l : Tab) (i j : nat),
     multiselect = true ->
     lastSelectedTabRef st = Some l ->
     position sortedTabs l = Some i ->
     position sortedTabs tab = Some j ->
     requests (settings (handleToggleTab sortedTabs tab selected multiselect st)) =
     requests (settings st) ++
     expected_requests settings_isTabManuallyLockable selected
       (contiguous sortedTabs i j)).
Proof.
  split.
  - intros H. unfold handleToggleTab. cbn [settings].
    rewrite forEach_requests, tabsToToggle_single by exact H. reflexivity.
  - intros l i j -> Hl Hi Hj. unfold handleToggleTab. cbn [settings].
    rewrite forEach_requests, Hl, (tabsToToggle_range _ _ _ _ _ Hi Hj).
    reflexivity.
Qed.

(** C9. After every call of [handleToggleTab] the last-selected reference
    is the clicked tab, whatever the range modifier, the lockability
    predicate and the id of the tab are. *)
Theorem handleToggleTab_lastSelected (sortedTabs : list Tab) (tab : Tab)
    (selected multiselect : bool) (st : State) :
  lastSelectedTabRef (handleToggleTab sortedTabs tab selected multiselect st) =
  Some tab.
Proof. reflexivity. Qed.

(** ** The sorters *)

(** C2, amended. [ChronoSorter.sort] returns 0 when an input is null;
    a locked tab compares greater than a tab that is not locked; and for
    two tabs of equal locked status it returns the difference of their
    timestamps, where a tab with a null id has timestamp [-1], provided
    every non-null id has an entry in [tabTimes]. When a non-null id has
    no entry the result is [NaN]. *)
Theorem ChronoSorter_sort_cases (a b : Tab) (t : TabTimes) :
  (forall x, ChronoSorter_sort None x t = Num 0 /\
             ChronoSorter_sort x None t = Num 0) /\
  (settings_isTabLocked a = true -> settings_isTabLocked b = false ->
   ChronoSorter_sort (Some a) (Some b) t = Num 1 /\
   ChronoSorter_sort (Some b) (Some a) t = Num (-1)) /\
  (settings_isTabLocked a = settings_isTabLocked b ->
   has_entry t a = true -> has_entry t b = true ->
   ChronoSorter_sort (Some a) (Some b) t =
   Num (timestamp_or_oldest t a - timestamp_or_oldest t b)) /\
  (settings_isTabLocked a = settings_isTabLocked b ->
   has_entry t a = false \/ has_entry t b = false ->
   ChronoSorter_sort (Some a) (Some b) t = NaN).
Proof.
  split; [|split; [|split]].
  - intros x. split; [reflexivity | destruct x; reflexivity].
  - intros Ha Hb. simpl. rewrite Ha, Hb. split; reflexivity.
  - intros E Ha Hb. simpl. rewrite E.
    unfold has_entry, lastModified, timestamp_or_oldest in *.
    destruct (settings_isTabLocked b); simpl;
      destruct (id a) as [ia|], (id b) as [ib|]; simpl;
      repeat match goal with
             | H : context [t !! ?k] |- _ => destruct (t !! k); try discriminate H
             end; reflexivity.
  - intros E H. simpl. rewrite E.
    unfold has_entry, lastModified in *.
    destruct (settings_isTabLocked b); simpl;
      destruct (id a) as [ia|], (id b) as [ib|]; simpl;
      destruct H as [H|H]; try discriminate H;
      repeat match goal with
             | H : context [t !! ?k] |- _ => destruct (t !! k); try discriminate H
             end;
      repeat match goal with
             | |- context [t !! ?k] => destruct (t !! k)
             end; reflexivity.
Qed.

(** C3. For all tabs [a], [b] (null included) and every [tabTimes],
    [ReverseTabOrderSorter.sort] is the negation of [TabOrderSorter.sort]
    and [ReverseChronoSorter.sort] the negation of [ChronoSorter.sort]. *)
Theorem reverse_sorters_negate (a b : option Tab) (t : TabTimes) :
  Sorter_sort ReverseTabOrderSorter a b t = neg (Sorter_sort TabOrderSorter a b t) /\
  Sorter_sort ReverseChronoSorter a b t = neg (Sorter_sort ChronoSorter a b t).
Proof.
  split; simpl.
  - unfold ReverseTabOrderSorter_sort. apply mul_minus_one.
  - unfold ReverseChronoSorter_sort. apply mul_minus_one.
Qed.

(** ** The tab-list projection *)

Lemma fresh_unused (h : ArrayStore) : h !! fresh (dom h) = None.
Proof. apply not_elem_of_dom, is_fresh. Qed.

Lemma array_alloc_frame (h : ArrayStore) (ys : list Tab) (q : positive) (xs : list Tab) :
  h !! q = Some xs -> (array_alloc h ys).1 !! q = Some xs.
Proof.
  intros Hq. unfold array_alloc; simpl.
  rewrite lookup_insert_ne; [exact Hq|].
  intros E. rewrite <- E, fresh_unused in Hq. discriminate.
Qed.

Lemma sortedTabs_loaded (h : ArrayStore) (tabs : positive) (xs : list Tab)
    (cur : Sorter) (t : TabTimes) :
  h !! tabs = Some xs ->
  sortedTabs h (Some tabs) cur t =
  Some (array_alloc h
          (sort (fun tabA tabB => Sorter_sort cur (Some tabA) (Some tabB) t) xs)).
Proof.
  intros Hx. unfold sortedTabs, array_copy, array_sort, array_alloc.
  rewrite Hx. simpl. rewrite lookup_insert_eq. simpl.
  rewrite insert_insert_eq. reflexivity.
Qed.

(** C4. While the raw collection is null the projection returns an empty
    array. When it is loaded, the projection returns an array and leaves
    the raw array (and every other array of the store) as it was; run a
    second time on the same inputs, in the store the first run left, it
    returns an array with the tabs in the same order, hence with the same
    order of tab ids. *)
Theorem sortedTabs_projection (h : ArrayStore) (cur : Sorter) (t : TabTimes) :
  (exists h' r,
     sortedTabs h None cur t = Some (h', r) /\
     h' !! r = Some [] /\
     forall q xs, h !! q = Some xs -> h' !! q = Some xs) /\
  (forall tabs xs,
     h !! tabs = Some xs ->
     exists h1 r1 ys1 h2 r2 ys2,
       sortedTabs h (Some tabs) cur t = Some (h1, r1) /\
       h1 !! r1 = Some ys1 /\
       (forall q zs, h !! q = Some zs -> h1 !! q = Some zs) /\
       h1 !! tabs = Some xs /\
       sortedTabs h1 (Some tabs) cur t = Some (h2, r2) /\
       h2 !! r2 = Some ys2 /\
       h2 !! r1 = Some ys1 /\
       h2 !! tabs = Some xs /\
       ys1 = ys2 /\
       List.map id ys1 = List.map id ys2).
Proof.
  split.
  - exists (array_alloc h []).1, (array_alloc h []).2.
    split; [reflexivity|]. split.
    + unfold array_alloc; simpl. apply lookup_insert_eq.
    + intros q xs. apply array_alloc_frame.
  - intros tabs xs Hx.
    set (ys := sort (fun tabA tabB => Sorter_sort cur (Some tabA) (Some tabB) t) xs).
    set (s1 := array_alloc h ys).
    assert (H1 : s1.1 !! tabs = Some xs) by (apply array_alloc_frame, Hx).
    assert (Hr : s1.1 !! s1.2 = Some ys) by (unfold s1, array_alloc; simpl; apply lookup_insert_eq).
    set (s2 := array_alloc s1.1 ys).
    exists s1.1, s1.2, ys, s2.1, s2.2, ys.
    split; [rewrite (sortedTabs_loaded _ _ _ _ _ Hx); reflexivity|].
    split; [exact Hr|].
    split; [intros q zs; apply array_alloc_frame|].
    split; [exact H1|].
    split; [rewrite (sortedTabs_loaded _ _ _ _ _ H1); reflexivity|].
    split; [unfold s2, array_alloc; simpl; apply lookup_insert_eq|].
    split; [apply array_alloc_frame, Hr|].
    split; [apply array_alloc_frame, H1|].
    split; reflexivity.
Qed.

End LockTab.

(** ** TabOrder is a strict total order *)

Lemma TabOrder_sorts_before (a b : Tab) :
  sorts_before TabOrderSorter_sort a b <-> window_index_lt a b.
Proof.
  unfold sorts_before, window_index_lt, TabOrderSorter_sort.
  destruct (Z.eqb_spec (windowId a) (windowId b)) as [E|E]; simpl;
    rewrite Z.ltb_lt; lia.
Qed.

(** C8. [TabOrderSorter.sort] returns 0 when an input is null and orders
    tabs by [(windowId, index)] ascending: it is negative exactly when the
    first tab is below the second in the lexicographic order, and swapping
    the arguments negates it. The order it induces is asymmetric and
    transitive, and of two tabs with distinct [(windowId, index)] pairs
    exactly one sorts before the other. *)
Theorem TabOrderSorter_strict_total_order :
  (forall x, TabOrderSorter_sort None x = Num 0 /\
             TabOrderSorter_sort x None = Num 0) /\
  (forall a b, sorts_before TabOrderSorter_sort a b <-> window_index_lt a b) /\
  (forall a b, TabOrderSorter_sort (Some b) (Some a) =
               neg (TabOrderSorter_sort (Some a) (Some b))) /\
  (forall a, ~ sorts_before TabOrderSorter_sort a a) /\
  (forall a b, sorts_before TabOrderSorter_sort a b ->
               ~ sorts_before TabOrderSorter_sort b a) /\
  (forall a b c, sorts_before TabOrderSorter_sort a b ->
                 sorts_before TabOrderSorter_sort b c ->
                 sorts_before TabOrderSorter_sort a c) /\
  (forall a b, (windowId a, index a) <> (windowId b, index b) ->
               (sorts_before TabOrderSorter_sort a b /\
                ~ sorts_before TabOrderSorter_sort b a) \/
               (sorts_before TabOrderSorter_sort b a /\
                ~ sorts_before TabOrderSorter_sort a b)).
Proof.
  repeat apply conj.
  - intros x. destruct x; split; reflexivity.
  - exact TabOrder_sorts_before.
  - intros a b. unfold TabOrderSorter_sort.
    destruct (Z.eqb_spec (windowId a) (windowId b)) as [E|E],
             (Z.eqb_spec (windowId b) (windowId a)) as [E'|E'];
      try congruence; simpl; f_equal; lia.
  - intros a. rewrite TabOrder_sorts_before. unfold window_index_lt. lia.
  - intros a b. rewrite !TabOrder_sorts_before. unfold window_index_lt. lia.
  - intros a b c. rewrite !TabOrder_sorts_before. unfold window_index_lt. lia.
  - intros a b Hne. rewrite !TabOrder_sorts_before. unfold window_index_lt.
    assert (windowId a <> windowId b \/ index a <> index b) as H.
    { destruct (Z.eq_dec (windowId a) (windowId b)) as [E|E]; [|left; exact E].
      right. intros E'. apply Hne. rewrite E, E'. reflexivity. }
    lia.
Qed.

(** ** The sort selection state *)

(** C5. While the persisted key is null, choosing a sorter other than the
    active one makes it the active sorter and leaves the persisted key null
    (the settings are not written); choosing the active sorter changes
    neither the active sorter nor the persisted key. *)
Theorem clickSorter_persistence_disabled (next : Sorter) (st : State) :
  settings_get (settings st) = None ->
  (next <> currSorter st ->
   currSorter (clickSorter next st) = next /\
   settings (clickSorter next st) = settings st /\
   settings_get (settings (clickSorter next st)) = None) /\
  (next = currSorter st ->
   currSorter (clickSorter next st) = currSorter st /\
   settings (clickSorter next st) = settings st /\
   settings_get (settings (clickSorter next st)) = None).
Proof.
  intros Hnone. unfold clickSorter. split; intros H.
  - destruct (decide (next = currSorter st)) as [E|_]; [contradiction|].
    cbn [currSorter settings]. rewrite Hnone. auto.
  - destruct (decide (next = currSorter st)) as [_|E]; [|contradiction].
    cbn [currSorter settings]. auto.
Qed.

(** C6. Ticking the checkbox persists the key of the active sorter and
    clearing it persists null; hence ticking it and then choosing a sorter
    [X] other than the active one leaves [X.key] persisted. *)
Theorem handleChangeSaveSortOrder_persists (st : State) :
  settings_get (settings (handleChangeSaveSortOrder true st)) =
  Some (key (currSorter st)) /\
  settings_get (settings (handleChangeSaveSortOrder false st)) = None /\
  (forall X, X <> currSorter st ->
             settings_get
               (settings (clickSorter X (handleChangeSaveSortOrder true st))) =
             Some (key X)).
Proof.
  split; [reflexivity|]. split; [reflexivity|].
  intros X HX. unfold clickSorter, handleChangeSaveSortOrder.
  cbn [currSorter settings].
  destruct (decide (X = currSorter st)) as [E|_]; [contradiction|].
  reflexivity.
Qed.

(** C7. Mounting the component yields an active sorter for every persisted
    key: [TabOrderSorter] when there is none, the sorter of the registry
    that has the key when there is one, and [TabOrderSorter] again when no
    sorter has the key, as for the key "bogus". *)
Theorem mount_selects_sorter (s : Settings) :
  (settings_get s = None -> currSorter (mount s) = TabOrderSorter) /\
  (forall x, In x Sorters -> settings_get s = Some (key x) ->
             currSorter (mount s) = x) /\
  (forall k, settings_get s = Some k -> (forall x, In x Sorters -> key x <> k) ->
             currSorter (mount s) = TabOrderSorter) /\
  (settings_get s = Some "bogus"%string -> currSorter (mount s) = TabOrderSorter).
Proof.
  unfold mount. cbn [currSorter].
  repeat apply conj.
  - intros ->. reflexivity.
  - intros x _ ->. destruct x; reflexivity.
  - intros k -> Hk. unfold initialSorter, find.
    destruct (List.find _ Sorters) as [x|] eqn:E; [|reflexivity].
    apply find_some in E as [Hin E].
    apply String.eqb_eq in E. exfalso. exact (Hk x Hin E).
  - intros ->. reflexivity.
Qed.

(** ** A stale last-selected object *)

(** C10. The last-selected tab is looked up by the identity of the stored
    object, not by its tab id: in the list [T1'; T2; T3], which holds a tab
    with the id of the stored object [T1] but not [T1] itself, a shift-click
    on [T3] toggles [T3] alone, and not the run from the tab with that id to
    the target. *)
Theorem stale_object_degrades_to_single :
  exists (orderedTabs : list Tab) (stored target : Tab) (st : State),
    lastSelectedTabRef st = Some stored /\
    (exists t, In t orderedTabs /\ id t = id stored) /\
    (forall t, In t orderedTabs -> same_object t stored = false) /\
    In target orderedTabs /\
    tabsToToggle orderedTabs (Some stored) target true = [target] /\
    contiguous orderedTabs 0 2 = orderedTabs /\
    requests (settings (handleToggleTab Sample.always orderedTabs target true true st)) =
    [LockTab 13].
Proof.
  exists [Sample.T1'; Sample.T2; Sample.T3], Sample.T1, Sample.T3, Sample.st0.
  split; [reflexivity|].
  split; [exists Sample.T1'; split; [left|]; reflexivity|].
  split.
  - intros t [<- | [<- | [<- | []]]]; reflexivity.
  - split; [right; right; left; reflexivity|].
    repeat split; reflexivity.
Qed.

(** ** The scenarios of the specification, evaluated *)

Import Sample.

Example sort_by_tab_order :
  sort (fun a b => Sorter_sort never TabOrderSorter (Some a) (Some b) times)
    [T3; T1; T2] = [T1; T2; T3].
Proof. reflexivity. Qed.

Example sort_by_chrono :
  sort (fun a b => Sorter_sort never ChronoSorter (Some a) (Some b) times)
    [T2; T3; T0] = [T0; T3; T2].
Proof. vm_compute. reflexivity. Qed.

Example range_click_selects_run :
  tabsToToggle [T1; T2; T3] (Some T1) T3 true = [T1; T2; T3].
Proof. reflexivity. Qed.

Example range_click_upwards :
  tabsToToggle [T1; T2; T3; T0] (Some T0) T2 true = [T2; T3; T0].
Proof. reflexivity. Qed.

Example plain_click_selects_target :
  tabsToToggle [T1; T2; T3] (Some T1) T2 false = [T2].
Proof. reflexivity. Qed.

Example closed_tab_degrades_to_target :
  tabsToToggle [T2; T3] (Some T1) T3 true = [T3].
Proof. reflexivity. Qed.

(** A target that is not a row of the list: [indexOf] gives [-1], which
    [slice] reads from the end of the array. *)
Example target_outside_the_list :
  tabsToToggle [T1; T2] (Some T1) T3 true = [] /\
  tabsToToggle [T1; T2] (Some T2) T3 true = [T2].
Proof. split; reflexivity. Qed.

Example toggle_skips_tab_without_id :
  requests (settings (handleToggleTab always [T1; T2; T0] T0 false true st0)) =
  [UnlockTab 11; UnlockTab 12].
Proof. reflexivity. Qed.

Example projection_of_sample_store :
  exists h r,
    sortedTabs never store (Some 1%positive) TabOrderSorter times = Some (h, r) /\
    h !! r = Some [T1; T2; T3] /\
    h !! 1%positive = Some [T3; T1; T2].
Proof. eexists _, _. split; [reflexivity|]. split; vm_compute; reflexivity. Qed.

(** ** Instances of the theorems *)

Lemma handleToggleTab_requests_witness :
  (lastSelectedTabRef st0 = Some T1 /\
   position [T1; T2; T3] T1 = Some 0%nat /\
   position [T1; T2; T3] T3 = Some 2%nat /\
   requests (settings (handleToggleTab notFirst [T1; T2; T3] T3 true true st0)) =
   [LockTab 12]) /\
  requests (settings (handleToggleTab notFirst [T1; T2; T3] T2 false false st0)) =
  [UnlockTab 12].
Proof.
  split.
  - split; [reflexivity|]. split; [reflexivity|]. split; [reflexivity|].
    exact (proj2 (handleToggleTab_requests notFirst [T1; T2; T3] T3 true true st0)
             T1 0%nat 2%nat eq_refl eq_refl eq_refl eq_refl).
  - exact (proj1 (handleToggleTab_requests notFirst [T1; T2; T3] T2 false false st0)
             (or_introl eq_refl)).
Defined.

(** C2 as stated fails where a tab has an id and [tabTimes] has no entry
    for it: [T1] and [T2] have the same locked status and [T1] has no entry;
    the claim gives [-1 - 500], the comparator gives [NaN]. *)
Lemma ChronoSorter_missing_entry_counterexample :
  never T1 = never T2 /\
  timestamp_or_oldest times T1 - timestamp_or_oldest times T2 = -501 /\
  ChronoSorter_sort never (Some T1) (Some T2) times = NaN /\
  ChronoSorter_sort never (Some T1) (Some T2) times <>
  Num (timestamp_or_oldest times T1 - timestamp_or_oldest times T2).
Proof.
  split; [reflexivity|]. split; [reflexivity|].
  split; [vm_compute; reflexivity|].
  vm_compute. discriminate.
Qed.

Lemma ChronoSorter_sort_cases_witness :
  (always T2 = always T3 /\ has_entry times T2 = true /\ has_entry times T3 = true /\
   ChronoSorter_sort always (Some T2) (Some T3) times = Num 300) /\
  (never T0 = never T3 /\ has_entry times T0 = true /\
   ChronoSorter_sort never (Some T0) (Some T3) times = Num (-201)) /\
  (notFirst T2 = true /\ notFirst T3 = false /\
   ChronoSorter_sort notFirst (Some T2) (Some T3) times = Num 1 /\
   ChronoSorter_sort notFirst (Some T3) (Some T2) times = Num (-1)) /\
  (has_entry times T1 = false /\
   ChronoSorter_sort never (Some T1) (Some T2) times = NaN).
Proof.
  split; [|split; [|split]].
  - split; [reflexivity|]. split; [reflexivity|]. split; [reflexivity|].
    exact (proj1 (proj2 (proj2 (ChronoSorter_sort_cases always T2 T3 times)))
             eq_refl eq_refl eq_refl).
  - split; [reflexivity|]. split; [reflexivity|].
    exact (proj1 (proj2 (proj2 (ChronoSorter_sort_cases never T0 T3 times)))
             eq_refl eq_refl eq_refl).
  - split; [reflexivity|]. split; [reflexivity|].
    exact (proj1 (proj2 (ChronoSorter_sort_cases notFirst T2 T3 times))
             eq_refl eq_refl).
  - split; [reflexivity|].
    exact (proj2 (proj2 (proj2 (ChronoSorter_sort_cases never T1 T2 times)))
             eq_refl (or_introl eq_refl)).
Defined.

Lemma sortedTabs_projection_witness :
  store !! 1%positive = Some [T3; T1; T2] /\
  exists h1 r1 ys1 h2 r2 ys2,
    sortedTabs never store (Some 1%positive) TabOrderSorter times = Some (h1, r1) /\
    h1 !! r1 = Some ys1 /\
    (forall q zs, store !! q = Some zs -> h1 !! q = Some zs) /\
    h1 !! 1%positive = Some [T3; T1; T2] /\
    sortedTabs never h1 (Some 1%positive) TabOrderSorter times = Some (h2, r2) /\
    h2 !! r2 = Some ys2 /\
    h2 !! r1 = Some ys1 /\
    h2 !! 1%positive = Some [T3; T1; T2] /\
    ys1 = ys2 /\
    List.map id ys1 = List.map id ys2.
Proof.
  split; [reflexivity|].
  exact (proj2 (sortedTabs_projection never store TabOrderSorter times)
           1%positive [T3; T1; T2] eq_refl).
Defined.

Lemma TabOrderSorter_strict_total_order_witness :
  (windowId T2, index T2) <> (windowId T3, index T3) /\
  ((sorts_before TabOrderSorter_sort T2 T3 /\
    ~ sorts_before TabOrderSorter_sort T3 T2) \/
   (sorts_before TabOrderSorter_sort T3 T2 /\
    ~ sorts_before TabOrderSorter_sort T2 T3)).
Proof.
  assert (H : (windowId T2, index T2) <> (windowId T3, index T3))
    by (simpl; discriminate).
  split; [exact H|].
  exact (proj2 (proj2 (proj2 (proj2 (proj2 (proj2
           TabOrderSorter_strict_total_order))))) T2 T3 H).
Defined.

Lemma clickSorter_persistence_disabled_witness :
  settings_get (settings st0) = None /\
  ChronoSorter <> currSorter st0 /\
  currSorter (clickSorter ChronoSorter st0) = ChronoSorter /\
  settings (clickSorter ChronoSorter st0) = settings st0 /\
  settings_get (settings (clickSorter ChronoSorter st0)) = None /\
  currSorter (clickSorter TabOrderSorter st0) = TabOrderSorter /\
  settings_get (settings (clickSorter TabOrderSorter st0)) = None.
Proof.
  assert (Hne : ChronoSorter <> currSorter st0) by (simpl; discriminate).
  pose proof (clickSorter_persistence_disabled ChronoSorter st0 eq_refl) as [H _].
  pose proof (clickSorter_persistence_disabled TabOrderSorter st0 eq_refl) as [_ H'].
  specialize (H Hne). specialize (H' eq_refl).
  split; [reflexivity|]. split; [exact Hne|].
  split; [apply H|]. split; [apply H|]. split; [apply H|].
  split; apply H'.
Defined.

Lemma handleChangeSaveSortOrder_persists_witness :
  ReverseChronoSorter <> currSorter st0 /\
  settings_get
    (settings (clickSorter ReverseChronoSorter (handleChangeSaveSortOrder true st0))) =
  Some "reverseChrono"%string.
Proof.
  assert (Hne : ReverseChronoSorter <> currSorter st0) by (simpl; discriminate).
  split; [exact Hne|].
  exact (proj2 (proj2 (handleChangeSaveSortOrder_persists st0)) ReverseChronoSorter Hne).
Defined.

Lemma mount_selects_sorter_witness :
  currSorter (mount (mkSettings None [])) = TabOrderSorter /\
  currSorter (mount (mkSettings (Some "reverseChrono"%string) [])) =
  ReverseChronoSorter /\
  currSorter (mount (mkSettings (Some "bogus"%string) [])) = TabOrderSorter /\
  currSorter (mount (mkSettings (Some "TabOrder"%string) [])) = TabOrderSorter.
Proof.
  split; [|split; [|split]].
  - exact (proj1 (mount_selects_sorter (mkSettings None [])) eq_refl).
  - apply (proj1 (proj2 (mount_selects_sorter
                           (mkSettings (Some "reverseChrono"%string) [])))
             ReverseChronoSorter).
    + simpl. tauto.
    + reflexivity.
  - exact (proj2 (proj2 (proj2 (mount_selects_sorter
                                  (mkSettings (Some "bogus"%string) []))))
             eq_refl).
  - apply (proj1 (proj2 (proj2 (mount_selects_sorter
                                  (mkSettings (Some "TabOrder"%string) []))))
             "TabOrder"%string).
    + reflexivity.
    + intros x _. destruct x; simpl; discriminate.
Defined.

(** ** The sort of an array: permutation, order, stability *)

Section SortFacts.

Context {A : Type} (comparefn : A -> A -> number).

Lemma sort_insert_perm (x : A) (l : list A) :
  sort_insert comparefn x l ≡ₚ x :: l.
Proof.
  induction l as [|y l IH]; simpl; [reflexivity|].
  destruct (0 <? sort_compare comparefn x y); [|reflexivity].
  rewrite IH. apply Permutation_swap.
Qed.

Lemma sort_perm (l : list A) : sort comparefn l ≡ₚ l.
Proof.
  induction l as [|x l IH]; simpl; [reflexivity|].
  rewrite sort_insert_perm, IH. reflexivity.
Qed.

(** When, on the elements that satisfy [P], the comparator decides a
    transitive relation [R], the sort orders these elements by [R]. *)
Lemma sort_insert_StronglySorted (R : relation A) (P : A -> Prop) :
  Transitive R ->
  (forall x y, P x -> P y ->
     if 0 <? sort_compare comparefn x y then R y x else R x y) ->
  forall x l, P x -> Forall P l -> StronglySorted R l ->
              StronglySorted R (sort_insert comparefn x l).
Proof.
  intros HT Hdec x l Hx. induction l as [|y l IH]; intros HP HS; simpl.
  - repeat constructor.
  - apply Forall_cons in HP as [Hy HP].
    apply StronglySorted_cons in HS as [Hyl HS].
    specialize (Hdec x y Hx Hy).
    destruct (0 <? sort_compare comparefn x y).
    + apply StronglySorted_cons. split; [|apply IH; assumption].
      rewrite sort_insert_perm. apply Forall_cons. split; assumption.
    + apply StronglySorted_cons. split.
      * apply Forall_cons. split; [assumption|].
        eapply Forall_impl; [exact Hyl|]. intros z Hz. etransitivity; eassumption.
      * apply StronglySorted_cons. split; assumption.
Qed.

Lemma sort_StronglySorted (R : relation A) (P : A -> Prop) :
  Transitive R ->
  (forall x y, P x -> P y ->
     if 0 <? sort_compare comparefn x y then R y x else R x y) ->
  forall l, Forall P l -> StronglySorted R (sort comparefn l).
Proof.
  intros HT Hdec l. induction l as [|x l IH]; intros HP; simpl.
  - constructor.
  - apply Forall_cons in HP as [Hx HP].
    apply (sort_insert_StronglySorted R P HT Hdec); [assumption| |apply IH, HP].
    rewrite sort_perm. exact HP.
Qed.

(** The sort is stable: a list in which no element is strictly greater than
    a later one is left as it is. *)
Lemma sort_fixed (l : list A) :
  StronglySorted (fun x y => sort_compare comparefn x y <= 0) l ->
  sort comparefn l = l.
Proof.
  induction l as [|x l IH]; intros HS; simpl; [reflexivity|].
  apply StronglySorted_cons in HS as [Hx HS].
  rewrite (IH HS). destruct l as [|y l]; simpl; [reflexivity|].
  apply Forall_cons in Hx as [Hxy _].
  destruct (Z.ltb_spec 0 (sort_compare comparefn x y)); [lia|reflexivity].
Qed.

End SortFacts.

Lemma StronglySorted_weaken {A : Type} (R S : relation A) (l : list A) :
  (forall x y, R x y -> S x y) -> StronglySorted R l -> StronglySorted S l.
Proof.
  intros HRS. induction 1 as [|x l _ IH Hx]; constructor; [exact IH|].
  eapply Forall_impl; [exact Hx|]. intros y. apply HRS.
Qed.

Lemma StronglySorted_weaken_on {A : Type} (R S : relation A) (l : list A) :
  (forall x y, x ∈ l -> y ∈ l -> R x y -> S x y) ->
  StronglySorted R l -> StronglySorted S l.
Proof.
  intros HRS HS. induction HS as [|x l _ IH Hx]; constructor.
  - apply IH. intros y z Hy Hz. apply HRS; right; assumption.
  - rewrite Forall_forall in *. intros y Hy.
    apply HRS; [left|right; exact Hy|apply Hx, Hy].
Qed.

Lemma StronglySorted_reverse {A : Type} (R : relation A) (l : list A) :
  StronglySorted R l -> StronglySorted (flip R) (reverse l).
Proof.
  induction 1 as [|x l _ IH Hx]; [constructor|].
  rewrite reverse_cons. apply StronglySorted_app. split; [|split].
  - intros y z Hy Hz. apply list_elem_of_singleton in Hz as ->.
    rewrite Forall_forall in Hx. apply Hx. apply elem_of_reverse. exact Hy.
  - exact IH.
  - repeat constructor.
Qed.

Lemma NoDup_fmap_inj_on {A B : Type} (f : A -> B) (l : list A) (x y : A) :
  NoDup (f <$> l) -> x ∈ l -> y ∈ l -> f x = f y -> x = y.
Proof.
  induction l as [|z l IH]; simpl; intros HN Hx Hy E.
  - inversion Hx.
  - apply NoDup_cons in HN as [Hz HN].
    apply elem_of_cons in Hx as [->|Hx], Hy as [->|Hy].
    + reflexivity.
    + exfalso. apply Hz. rewrite E. apply list_elem_of_fmap_2. exact Hy.
    + exfalso. apply Hz. rewrite <- E. apply list_elem_of_fmap_2. exact Hx.
    + apply IH; assumption.
Qed.

Lemma window_index_le_trans : Transitive window_index_le.
Proof. intros a b c. unfold window_index_le. lia. Qed.

Lemma TabOrder_decides (x y : Tab) :
  if 0 <? sort_compare (fun a b => TabOrderSorter_sort (Some a) (Some b)) x y
  then window_index_le y x else window_index_le x y.
Proof.
  unfold sort_compare, TabOrderSorter_sort, window_index_le.
  destruct (Z.eqb_spec (windowId x) (windowId y)); simpl;
    match goal with |- context [0 <? ?v] => destruct (Z.ltb_spec 0 v) end; lia.
Qed.

Lemma ReverseTabOrder_decides (x y : Tab) (t : TabTimes) :
  if 0 <? sort_compare (fun a b => ReverseTabOrderSorter_sort (Some a) (Some b) t) x y
  then flip window_index_le y x else flip window_index_le x y.
Proof.
  unfold sort_compare, ReverseTabOrderSorter_sort, TabOrderSorter_sort,
    window_index_le, flip.
  destruct (Z.eqb_spec (windowId x) (windowId y)); simpl;
    match goal with |- context [0 <? ?v] => destruct (Z.ltb_spec 0 v) end; lia.
Qed.

Section Projection.

Variable settings_isTabLocked : Tab -> bool.

Lemma displayed_loaded (h : ArrayStore) (tabs : positive) (xs : list Tab)
    (cur : Sorter) (t : TabTimes) :
  h !! tabs = Some xs ->
  displayed settings_isTabLocked h (Some tabs) cur t =
  Some (sort (fun a b => Sorter_sort settings_isTabLocked cur (Some a) (Some b) t) xs).
Proof.
  intros Hx. unfold displayed.
  rewrite (sortedTabs_loaded _ _ _ _ _ _ Hx). simpl.
  apply lookup_insert_eq.
Qed.

(** X1. Whatever the sorter and the timestamps are (missing ones included),
    the table shows a permutation of the tabs the query returned: every tab
    object once, none added. *)
Theorem displayed_permutation (h : ArrayStore) (tabs : positive) (xs : list Tab)
    (cur : Sorter) (t : TabTimes) :
  h !! tabs = Some xs ->
  exists ys, displayed settings_isTabLocked h (Some tabs) cur t = Some ys /\
             ys ≡ₚ xs /\ length ys = length xs.
Proof.
  intros Hx. eexists. split; [apply displayed_loaded, Hx|].
  split; [apply sort_perm|]. apply Permutation_length, sort_perm.
Qed.

(** X2. Under [TabOrderSorter] the table lists the tabs by ascending
    [(windowId, index)]; under [ReverseTabOrderSorter] by descending
    [(windowId, index)]. *)
Theorem displayed_in_tab_order (h : ArrayStore) (tabs : positive) (xs : list Tab)
    (t : TabTimes) :
  h !! tabs = Some xs ->
  (exists ys, displayed settings_isTabLocked h (Some tabs) TabOrderSorter t = Some ys /\
              StronglySorted window_index_le ys) /\
  (exists ys, displayed settings_isTabLocked h (Some tabs) ReverseTabOrderSorter t = Some ys /\
              StronglySorted (flip window_index_le) ys).
Proof.
  intros Hx. split; eexists; (split; [apply displayed_loaded, Hx|]); simpl.
  - apply (sort_StronglySorted _ window_index_le (fun _ => True)).
    + exact window_index_le_trans.
    + intros x y _ _. apply TabOrder_decides.
    + apply Forall_forall. trivial.
  - apply (sort_StronglySorted _ (flip window_index_le) (fun _ => True)).
    + intros a b c Hab Hbc. exact (window_index_le_trans _ _ _ Hbc Hab).
    + intros x y _ _. apply ReverseTabOrder_decides.
    + apply Forall_forall. trivial.
Qed.

(** X3. A raw collection that already is in ascending [(windowId, index)]
    order, ties included, is shown under [TabOrderSorter] exactly as it
    came. *)
Theorem displayed_tab_order_stable (h : ArrayStore) (tabs : positive) (xs : list Tab)
    (t : TabTimes) :
  h !! tabs = Some xs ->
  StronglySorted window_index_le xs ->
  displayed settings_isTabLocked h (Some tabs) TabOrderSorter t = Some xs.
Proof.
  intros Hx HS. rewrite (displayed_loaded _ _ _ _ _ Hx). f_equal. simpl.
  apply sort_fixed. revert HS. apply StronglySorted_weaken.
  intros x y Hxy. pose proof (TabOrder_decides x y) as H.
  pose proof (TabOrder_decides y x) as H'.
  unfold sort_compare, TabOrderSorter_sort, window_index_le in *.
  destruct (Z.eqb_spec (windowId x) (windowId y)); simpl in *; lia.
Qed.

(** X4. When no two tabs share a [(windowId, index)] pair, the table under
    [ReverseTabOrderSorter] is the table under [TabOrderSorter] read
    backwards. *)
Theorem displayed_reverse_mirrors (h : ArrayStore) (tabs : positive) (xs : list Tab)
    (t : TabTimes) :
  h !! tabs = Some xs ->
  NoDup (tab_place <$> xs) ->
  displayed settings_isTabLocked h (Some tabs) ReverseTabOrderSorter t =
  reverse <$> displayed settings_isTabLocked h (Some tabs) TabOrderSorter t.
Proof.
  intros Hx HN. rewrite !(displayed_loaded _ _ _ _ _ Hx). simpl. f_equal.
  apply (StronglySorted_unique_strong (flip window_index_le)).
  - intros x1 x2 H1 H2 H12 H21.
    rewrite sort_perm in H1. rewrite reverse_Permutation, sort_perm in H2.
    apply (NoDup_fmap_inj_on tab_place xs); [assumption..|].
    unfold flip, window_index_le, tab_place in *. f_equal; lia.
  - apply (sort_StronglySorted _ (flip window_index_le) (fun _ => True)).
    + intros a b c Hab Hbc. exact (window_index_le_trans _ _ _ Hbc Hab).
    + intros x y _ _. apply ReverseTabOrder_decides.
    + apply Forall_forall. trivial.
  - apply StronglySorted_reverse.
    apply (sort_StronglySorted _ window_index_le (fun _ => True)).
    + exact window_index_le_trans.
    + intros x y _ _. apply TabOrder_decides.
    + apply Forall_forall. trivial.
  - rewrite reverse_Permutation, !sort_perm. reflexivity.
Qed.

End Projection.

(** ** The chrono sorters *)

Section Chrono.

Variable settings_isTabLocked : Tab -> bool.


Lemma chrono_le_trans (t : TabTimes) : Transitive (chrono_le settings_isTabLocked t).
Proof.
  intros a b c. unfold chrono_le.
  destruct (settings_isTabLocked a), (settings_isTabLocked b),
    (settings_isTabLocked c); intuition (try discriminate; try lia).
Qed.

Lemma sub_to_number_cases (u v : option Z) :
  sub (to_number u) (to_number v) =
  match u, v with
  | Some a, Some b => Num (a - b)
  | _, _ => NaN
  end.
Proof. destruct u, v; reflexivity. Qed.



Lemma lastModified_has_entry (t : TabTimes) (x : Tab) :
  has_entry t x = true -> lastModified t x = Some (timestamp_or_oldest t x).
Proof.
  unfold has_entry, lastModified, timestamp_or_oldest.
  destruct (id x) as [i|]; [|reflexivity].
  destruct (t !! i); [reflexivity|discriminate].
Qed.

Lemma Chrono_decides_order (x y : Tab) (t : TabTimes) :
  has_entry t x = true -> has_entry t y = true ->
  if 0 <? sort_compare
            (fun a b => ChronoSorter_sort settings_isTabLocked (Some a) (Some b) t) x y
  then chrono_le settings_isTabLocked t y x
  else chrono_le settings_isTabLocked t x y.
Proof.
  intros Hx Hy.
  unfold sort_compare, ChronoSorter_sort, chrono_le.
  rewrite (lastModified_has_entry _ _ Hx), (lastModified_has_entry _ _ Hy).
  destruct (settings_isTabLocked x), (settings_isTabLocked y); simpl;
    try (left; split; reflexivity);
    match goal with |- context [0 <? ?v] => destruct (Z.ltb_spec 0 v) end;
    right; split; try reflexivity; lia.
Qed.

Lemma ReverseChrono_decides_order (x y : Tab) (t : TabTimes) :
  has_entry t x = true -> has_entry t y = true ->
  if 0 <? sort_compare
            (fun a b => ReverseChronoSorter_sort settings_isTabLocked (Some a) (Some b) t) x y
  then flip (chrono_le settings_isTabLocked t) y x
  else flip (chrono_le settings_isTabLocked t) x y.
Proof.
  intros Hx Hy.
  unfold sort_compare, ReverseChronoSorter_sort, ChronoSorter_sort, chrono_le, flip.
  rewrite (lastModified_has_entry _ _ Hx), (lastModified_has_entry _ _ Hy).
  destruct (settings_isTabLocked x), (settings_isTabLocked y); simpl;
    try (left; split; reflexivity);
    match goal with |- context [0 <? ?v] => destruct (Z.ltb_spec 0 v) end;
    right; split; try reflexivity; lia.
Qed.


(** X6. When every tab has a null id or an entry in [tabTimes], the table
    under [ChronoSorter] lists the unlocked tabs before the locked ones and
    each group by ascending timestamp (a null id counting as [-1]); under
    [ReverseChronoSorter] it lists them in the opposite order. *)
Theorem displayed_in_chrono_order (h : ArrayStore) (tabs : positive) (xs : list Tab)
    (t : TabTimes) :
  h !! tabs = Some xs ->
  Forall (fun x => has_entry t x = true) xs ->
  (exists ys, displayed settings_isTabLocked h (Some tabs) ChronoSorter t = Some ys /\
              StronglySorted (chrono_le settings_isTabLocked t) ys) /\
  (exists ys, displayed settings_isTabLocked h (Some tabs) ReverseChronoSorter t = Some ys /\
              StronglySorted (flip (chrono_le settings_isTabLocked t)) ys).
Proof.
  intros Hx HP. split; eexists; (split; [apply displayed_loaded, Hx|]); simpl.
  - apply (sort_StronglySorted _ (chrono_le settings_isTabLocked t)
             (fun x => has_entry t x = true)).
    + apply chrono_le_trans.
    + intros x y. apply Chrono_decides_order.
    + exact HP.
  - apply (sort_StronglySorted _ (flip (chrono_le settings_isTabLocked t))
             (fun x => has_entry t x = true)).
    + intros a b c Hab Hbc. exact (chrono_le_trans t _ _ _ Hbc Hab).
    + intros x y. apply ReverseChrono_decides_order.
    + exact HP.
Qed.

(** X7. Each reverse sorter is its base sorter with the arguments swapped,
    for all inputs, null tabs and missing timestamps included. *)
Theorem reverse_sorter_swaps (a b : option Tab) (t : TabTimes) :
  Sorter_sort settings_isTabLocked ReverseTabOrderSorter a b t =
  Sorter_sort settings_isTabLocked TabOrderSorter b a t /\
  Sorter_sort settings_isTabLocked ReverseChronoSorter a b t =
  Sorter_sort settings_isTabLocked ChronoSorter b a t.
Proof.
  split; simpl.
  - unfold ReverseTabOrderSorter_sort. rewrite mul_minus_one.
    destruct a as [a|], b as [b|]; try reflexivity.
    unfold TabOrderSorter_sort.
    destruct (Z.eqb_spec (windowId a) (windowId b)),
             (Z.eqb_spec (windowId b) (windowId a));
      try congruence; simpl; f_equal; lia.
  - unfold ReverseChronoSorter_sort. rewrite mul_minus_one.
    destruct a as [a|], b as [b|]; try reflexivity.
    unfold ChronoSorter_sort. rewrite !sub_to_number_cases.
    destruct (settings_isTabLocked a), (settings_isTabLocked b); simpl;
      try reflexivity;
      destruct (lastModified t a), (lastModified t b); simpl;
      try reflexivity; f_equal; lia.
Qed.

(** X8. The order [ChronoSorter] induces is a strict partial order on all
    tabs, missing timestamps included: no tab sorts before itself, two tabs
    never sort before each other, and sorting before is transitive. *)
Theorem ChronoSorter_strict_order (t : TabTimes) :
  (forall a, ~ sorts_before (fun x y => ChronoSorter_sort settings_isTabLocked x y t) a a) /\
  (forall a b,
     sorts_before (fun x y => ChronoSorter_sort settings_isTabLocked x y t) a b ->
     ~ sorts_before (fun x y => ChronoSorter_sort settings_isTabLocked x y t) b a) /\
  (forall a b c,
     sorts_before (fun x y => ChronoSorter_sort settings_isTabLocked x y t) a b ->
     sorts_before (fun x y => ChronoSorter_sort settings_isTabLocked x y t) b c ->
     sorts_before (fun x y => ChronoSorter_sort settings_isTabLocked x y t) a c).
Proof.
  unfold sorts_before, ChronoSorter_sort.
  split; [|split].
  - intros a. rewrite sub_to_number_cases.
    destruct (settings_isTabLocked a); simpl;
      destruct (lastModified t a); simpl; try discriminate;
      rewrite Z.ltb_lt; lia.
  - intros a b. rewrite !sub_to_number_cases.
    destruct (settings_isTabLocked a), (settings_isTabLocked b); simpl;
      try discriminate; try (intros _; discriminate);
      destruct (lastModified t a), (lastModified t b); simpl;
      try discriminate; rewrite !Z.ltb_lt; lia.
  - intros a b c. rewrite !sub_to_number_cases.
    destruct (settings_isTabLocked a), (settings_isTabLocked b),
      (settings_isTabLocked c); simpl;
      try discriminate; try reflexivity;
      destruct (lastModified t a), (lastModified t b), (lastModified t c); simpl;
      try discriminate; rewrite !Z.ltb_lt; lia.
Qed.

End Chrono.

(** X21. Tabs that all have an id without an entry in [tabTimes] (as when
    the times are not loaded) compare as equal within a group: a raw
    collection of such tabs with no locked tab above an unlocked one is
    shown under [ChronoSorter] exactly as it came. *)
Theorem displayed_chrono_without_times (locked : Tab -> bool) (h : ArrayStore)
    (tabs : positive) (xs : list Tab) (t : TabTimes) :
  h !! tabs = Some xs ->
  Forall (fun x => has_entry t x = false) xs ->
  StronglySorted (locked_last locked) xs ->
  displayed locked h (Some tabs) ChronoSorter t = Some xs.
Proof.
  intros Hx HP HS. rewrite (displayed_loaded _ _ _ _ _ _ Hx). f_equal. simpl.
  apply sort_fixed. revert HS. apply StronglySorted_weaken_on.
  rewrite Forall_forall in HP. intros x y Hx' Hy Hxy.
  pose proof (HP x Hx') as Ex. pose proof (HP y Hy) as Ey.
  unfold sort_compare, ChronoSorter_sort, locked_last, has_entry, lastModified in *.
  destruct (locked x), (locked y); simpl;
    try lia; try (specialize (Hxy eq_refl); discriminate);
    destruct (id x) as [ix|]; try discriminate;
    destruct (t !! ix); try discriminate; simpl; lia.
Qed.

(** ** The locked rows *)

Section LockedRows.

Context {V : Type} (isTabLocked : Tab -> LockOptions V -> bool).

Lemma elem_of_lockedTabIds (l : list Tab) (d : gmap string V) (i : option Z) :
  i ∈ lockedTabIds isTabLocked l (Some d) <->
  exists t, t ∈ l /\ id t = i /\ isTabLocked t (lockOptions d) = true.
Proof.
  unfold lockedTabIds. rewrite elem_of_list_to_set, list_elem_of_In, in_map_iff.
  split.
  - intros (t & Hi & Ht). apply filter_In in Ht as [Ht Hp].
    exists t. rewrite list_elem_of_In. auto.
  - intros (t & Ht & Hi & Hp). exists t. split; [exact Hi|].
    apply filter_In. rewrite <- list_elem_of_In. auto.
Qed.

(** X9. A row is shown locked exactly when some tab of the list with the
    same id (the tab itself, or another tab with that id, or with no id
    when the tab has none) passes the lock policy; while the policy data is
    not loaded no row is shown locked. *)
Theorem rowIsLocked_iff (l : list Tab) (d : gmap string V) (tab : Tab) :
  (rowIsLocked isTabLocked l (Some d) tab = true <->
   exists t, t ∈ l /\ id t = id tab /\ isTabLocked t (lockOptions d) = true) /\
  rowIsLocked isTabLocked l None tab = false.
Proof.
  unfold rowIsLocked. split.
  - rewrite bool_decide_eq_true. apply elem_of_lockedTabIds.
  - apply bool_decide_eq_false. simpl. apply not_elem_of_empty.
Qed.

(** X10. When the ids of the listed tabs are pairwise distinct, the row of
    a listed tab is shown locked exactly when that tab passes the policy. *)
Theorem rowIsLocked_distinct_ids (l : list Tab) (d : gmap string V) (tab : Tab) :
  NoDup (id <$> l) -> tab ∈ l ->
  rowIsLocked isTabLocked l (Some d) tab = isTabLocked tab (lockOptions d).
Proof.
  intros HN Hin.
  unfold rowIsLocked.
  destruct (isTabLocked tab (lockOptions d)) eqn:E.
  - apply bool_decide_eq_true, elem_of_lockedTabIds. exists tab. auto.
  - apply bool_decide_eq_false. rewrite elem_of_lockedTabIds.
    intros (t & Ht & Hi & Hp).
    rewrite (NoDup_fmap_inj_on id l t tab HN Ht Hin Hi) in Hp. congruence.
Qed.

(** X11. The set of locked ids does not depend on the order of the list:
    the set computed from the displayed tabs is the one computed from the
    raw collection, for every sorter. *)
Theorem lockedTabIds_sorter_independent (locked : Tab -> bool) (h : ArrayStore)
    (tabs : positive) (xs : list Tab) (cur : Sorter) (t : TabTimes)
    (tabLockData : option (gmap string V)) :
  h !! tabs = Some xs ->
  exists ys, displayed locked h (Some tabs) cur t = Some ys /\
             lockedTabIds isTabLocked ys tabLockData =
             lockedTabIds isTabLocked xs tabLockData.
Proof.
  intros Hx. eexists. split; [apply displayed_loaded, Hx|].
  destruct tabLockData as [d|]; [|reflexivity].
  apply set_eq. intros i. rewrite !elem_of_lockedTabIds.
  split; intros (u & Hu & H); exists u; (split; [|exact H]).
  - rewrite sort_perm in Hu. exact Hu.
  - rewrite sort_perm. exact Hu.
Qed.

Lemma handleChanged_false {C : Type} (changes : gmap string C) :
  handleChanged changes "sync" = false ->
  Forall (fun k => changes !! k = None) watchedKeys.
Proof.
  unfold handleChanged. simpl. intros H.
  repeat match type of H with
         | context [bool_decide (is_Some (changes !! ?k))] =>
             let E := fresh "E" in
             destruct (changes !! k) eqn:E;
             [rewrite bool_decide_eq_true_2 in H by eauto; simpl in H; discriminate H
             |rewrite bool_decide_eq_false_2 in H by (intros [? ?]; discriminate);
              simpl in H]
         end.
  repeat constructor; assumption.
Qed.

(** X12. The storage listener invalidates the query on every sync change
    that can alter the locked set: when it does not fire for a change of
    the sync area, the stored data before and after that change (equal on
    every key the change does not name) give the same locked ids. *)
Theorem handleChanged_covers_lockedTabIds {C : Type} (changes : gmap string C)
    (d d' : gmap string V) (l : list Tab) :
  handleChanged changes "sync" = false ->
  (forall k, changes !! k = None -> d' !! k = d !! k) ->
  lockedTabIds isTabLocked l (Some d') = lockedTabIds isTabLocked l (Some d).
Proof.
  intros H Hd. apply handleChanged_false in H.
  unfold watchedKeys in H.
  repeat match type of H with
         | Forall _ (_ :: _) => apply Forall_cons in H as [? H]
         end.
  unfold lockedTabIds, lockOptions. rewrite !Hd by assumption. reflexivity.
Qed.

End LockedRows.

(** ** Sessions: what the handlers keep *)

Lemma initialSorter_key (x : Sorter) : initialSorter (Some (key x)) = x.
Proof. destruct x; reflexivity. Qed.

Lemma contiguous_comm (l : list Tab) (i j : nat) :
  contiguous l i j = contiguous l j i.
Proof. unfold contiguous. rewrite (Nat.max_comm i j), (Nat.min_comm i j). reflexivity. Qed.

Section Session.

Variable settings_isTabManuallyLockable : Tab -> bool.

Lemma handleEvent_checkbox (st : State) (e : Event) :
  (checkbox_checked st = true <-> is_Some (settings_get (settings st))) ->
  checkbox_checked (handleEvent settings_isTabManuallyLockable st e) = true <->
  is_Some (settings_get (settings (handleEvent settings_isTabManuallyLockable st e))).
Proof.
  unfold checkbox_checked, settings_get. intros H.
  destruct e as [next|checked|l tab sel multi| |m n c]; simpl.
  - unfold clickSorter. destruct (decide (next = currSorter st)); simpl; [exact H|].
    unfold settings_get.
    destruct (lockTabSortOrder (settings st)) eqn:E; simpl.
    + rewrite H. split; eauto.
    + rewrite E. exact H.
  - destruct checked; simpl; split; eauto; try discriminate.
    intros [? ?]; discriminate.
  - rewrite forEach_lockTabSortOrder. exact H.
  - exact H.
  - unfold handleWindowClick. destruct (_ && _); exact H.
Qed.

Lemma handleEvent_persisted_matches (st : State) (e : Event) :
  (forall k, settings_get (settings st) = Some k -> k = key (currSorter st)) ->
  forall k,
    settings_get (settings (handleEvent settings_isTabManuallyLockable st e)) = Some k ->
    k = key (currSorter (handleEvent settings_isTabManuallyLockable st e)).
Proof.
  unfold settings_get. intros H k.
  destruct e as [next|checked|l tab sel multi| |m n c]; simpl.
  - unfold clickSorter. destruct (decide (next = currSorter st)); simpl; [apply H|].
    unfold settings_get. destruct (lockTabSortOrder (settings st)) eqn:E0; simpl.
    + intros [= <-]. reflexivity.
    + intros E. congruence.
  - destruct checked; simpl; [intros [= <-]; reflexivity | discriminate].
  - rewrite forEach_lockTabSortOrder. apply H.
  - apply H.
  - unfold handleWindowClick. destruct (_ && _); apply H.
Qed.

Lemma run_snoc (es : list Event) (e : Event) (st : State) :
  run settings_isTabManuallyLockable (es ++ [e]) st =
  handleEvent settings_isTabManuallyLockable
    (run settings_isTabManuallyLockable es st) e.
Proof. unfold run. rewrite fold_left_app. reflexivity. Qed.

Lemma run_persisted_matches (es : list Event) (st : State) :
  (forall k, settings_get (settings st) = Some k -> k = key (currSorter st)) ->
  forall k,
    settings_get (settings (run settings_isTabManuallyLockable es st)) = Some k ->
    k = key (currSorter (run settings_isTabManuallyLockable es st)).
Proof.
  intros H. induction es as [|e es IH] using rev_ind; [exact H|].
  rewrite run_snoc. apply handleEvent_persisted_matches, IH.
Qed.

Lemma mount_persisted_matches (s : Settings) :
  (settings_get s = None \/ exists x, settings_get s = Some (key x)) ->
  forall k, settings_get (settings (mount s)) = Some k ->
            k = key (currSorter (mount s)).
Proof.
  unfold mount; simpl. intros [E | [x E]] k; rewrite E; [discriminate|].
  intros [= <-]. rewrite initialSorter_key. reflexivity.
Qed.

(** X13. Throughout a session (any sequence of sorter choices, checkbox
    changes, tab toggles, dropdown toggles and window clicks after the
    mount) the checkbox is checked exactly when a sort key is persisted. *)
Theorem session_checkbox_reflects_persistence (es : list Event) (s : Settings) :
  checkbox_checked (run settings_isTabManuallyLockable es (mount s)) = true <->
  is_Some (settings_get (settings (run settings_isTabManuallyLockable es (mount s)))).
Proof.
  induction es as [|e es IH] using rev_ind.
  - unfold run, mount, checkbox_checked; simpl.
    destruct (settings_get s); split; eauto; try discriminate.
    intros [? ?]; discriminate.
  - rewrite run_snoc. apply handleEvent_checkbox, IH.
Qed.

(** X14. When the component mounts with no persisted key or with the key
    of a sorter, then throughout the session a persisted key, when there is
    one, is the key of the active sorter. *)
Theorem session_persisted_key_is_active (es : list Event) (s : Settings) (k : string) :
  (settings_get s = None \/ exists x, settings_get s = Some (key x)) ->
  settings_get (settings (run settings_isTabManuallyLockable es (mount s))) = Some k ->
  k = key (currSorter (run settings_isTabManuallyLockable es (mount s))).
Proof.
  intros Hs. apply run_persisted_matches, mount_persisted_matches, Hs.
Qed.

(** X15. Persisting and restoring round-trip: after such a session, a new
    mount from the settings the session left starts with the sorter that
    was active at its end when a key is persisted, and with the default
    sorter when none is. *)
Theorem session_remount_restores (es : list Event) (s : Settings) :
  (settings_get s = None \/ exists x, settings_get s = Some (key x)) ->
  (is_Some (settings_get (settings (run settings_isTabManuallyLockable es (mount s)))) ->
   currSorter (mount (settings (run settings_isTabManuallyLockable es (mount s)))) =
   currSorter (run settings_isTabManuallyLockable es (mount s))) /\
  (settings_get (settings (run settings_isTabManuallyLockable es (mount s))) = None ->
   currSorter (mount (settings (run settings_isTabManuallyLockable es (mount s)))) =
   TabOrderSorter).
Proof.
  intros Hs.
  pose proof (run_persisted_matches es (mount s) (mount_persisted_matches s Hs)) as H.
  set (st := run settings_isTabManuallyLockable es (mount s)) in *.
  unfold mount. cbn [currSorter].
  split.
  - intros [k E]. rewrite E, (H k E). apply initialSorter_key.
  - intros ->. reflexivity.
Qed.

(** X16. The two concerns do not interfere: a tab toggle changes neither
    the persisted key, nor the checkbox, the active sorter or the dropdown;
    every other interaction issues no lock or unlock request and keeps the
    anchor of the range selection. *)
Theorem handlers_frame (st : State) (e : Event) :
  match e with
  | ToggleTab _ _ _ _ =>
      settings_get (settings (handleEvent settings_isTabManuallyLockable st e)) =
      settings_get (settings st) /\
      sortOrder (handleEvent settings_isTabManuallyLockable st e) = sortOrder st /\
      currSorter (handleEvent settings_isTabManuallyLockable st e) = currSorter st /\
      isSortDropdownOpen (handleEvent settings_isTabManuallyLockable st e) =
      isSortDropdownOpen st
  | _ =>
      requests (settings (handleEvent settings_isTabManuallyLockable st e)) =
      requests (settings st) /\
      lastSelectedTabRef (handleEvent settings_isTabManuallyLockable st e) =
      lastSelectedTabRef st
  end.
Proof.
  destruct e as [next|checked|l tab sel multi| |m n c]; simpl.
  - unfold clickSorter. destruct (decide (next = currSorter st)); simpl; [auto|].
    destruct (settings_get (settings st)); auto.
  - destruct checked; auto.
  - unfold settings_get. rewrite forEach_lockTabSortOrder. auto.
  - auto.
  - unfold handleWindowClick. destruct (_ && _); auto.
Qed.

(** X17. A plain click on a row followed by a shift-click on another row
    of the same list issues the request for the first row and then the
    requests for the whole run between the two rows, whatever the anchor
    was before. *)
Theorem click_then_shift_click (l : list Tab) (a b : Tab) (i j : nat)
    (sel sel' : bool) (st : State) :
  position l a = Some i ->
  position l b = Some j ->
  requests (settings (run settings_isTabManuallyLockable
                        [ToggleTab l a sel false; ToggleTab l b sel' true] st)) =
  requests (settings st) ++
  expected_requests settings_isTabManuallyLockable sel [a] ++
  expected_requests settings_isTabManuallyLockable sel' (contiguous l i j).
Proof.
  intros Hi Hj. unfold run. cbn [fold_left handleEvent].
  unfold handleToggleTab. cbn [settings lastSelectedTabRef].
  rewrite !forEach_requests.
  rewrite (tabsToToggle_range _ _ _ _ _ Hi Hj).
  rewrite tabsToToggle_single by (left; reflexivity).
  rewrite <- app_assoc. reflexivity.
Qed.

End Session.

(** ** The affected run *)

(** X18. A range selection does not depend on its direction: with both
    rows in the list, shift-clicking [b] after [a] affects the same rows,
    in the same order, as shift-clicking [a] after [b]. *)
Theorem tabsToToggle_symmetric (l : list Tab) (a b : Tab) :
  is_Some (position l a) -> is_Some (position l b) ->
  tabsToToggle l (Some a) b true = tabsToToggle l (Some b) a true.
Proof.
  intros [i Hi] [j Hj].
  rewrite (tabsToToggle_range _ _ _ _ _ Hi Hj), (tabsToToggle_range _ _ _ _ _ Hj Hi).
  apply contiguous_comm.
Qed.

(** X19. With the anchor at position [i] and the target at position [j],
    the affected rows are [|i - j| + 1] consecutive rows of the list, the
    anchor and the target among them. *)
Theorem tabsToToggle_range_shape (l : list Tab) (a b : Tab) (i j : nat) :
  position l a = Some i ->
  position l b = Some j ->
  length (tabsToToggle l (Some a) b true) = (Nat.max i j - Nat.min i j + 1)%nat /\
  (forall k, (k <= Nat.max i j - Nat.min i j)%nat ->
             tabsToToggle l (Some a) b true !! k = l !! (Nat.min i j + k)%nat) /\
  (exists y, y ∈ tabsToToggle l (Some a) b true /\ same_object y a = true) /\
  (exists y, y ∈ tabsToToggle l (Some a) b true /\ same_object y b = true).
Proof.
  intros Hi Hj. rewrite (tabsToToggle_range _ _ _ _ _ Hi Hj).
  pose proof (position_lt _ _ _ Hi) as Li. pose proof (position_lt _ _ _ Hj) as Lj.
  assert (Hk : forall k, (k <= Nat.max i j - Nat.min i j)%nat ->
                         contiguous l i j !! k = l !! (Nat.min i j + k)%nat).
  { intros k Hk. unfold contiguous.
    rewrite lookup_take_lt by lia. apply lookup_drop. }
  split; [|split; [exact Hk|split]].
  - unfold contiguous. rewrite length_take, length_drop. lia.
  - destruct (position_same_object _ _ _ Hi) as (y & Hy & Hs).
    exists y. split; [|exact Hs].
    apply list_elem_of_lookup. exists (i - Nat.min i j)%nat.
    rewrite Hk by lia. rewrite <- Hy. f_equal. lia.
  - destruct (position_same_object _ _ _ Hj) as (y & Hy & Hs).
    exists y. split; [|exact Hs].
    apply list_elem_of_lookup. exists (j - Nat.min i j)%nat.
    rewrite Hk by lia. rewrite <- Hy. f_equal. lia.
Qed.

(** X20. A shift-click whose target is not an object of the list, with the
    anchor at position [i]: [indexOf] gives [-1] for the target, which
    [slice] counts from the end, so the affected rows are the last row of
    the list when the anchor is that row, and none otherwise. *)
Theorem tabsToToggle_target_absent (l : list Tab) (a b : Tab) (i : nat) :
  position l a = Some i ->
  position l b = None ->
  tabsToToggle l (Some a) b true =
  if bool_decide (S i = length l) then drop i l else [].
Proof.
  intros Hi Hb. pose proof (position_lt _ _ _ Hi) as Li.
  unfold tabsToToggle. rewrite !indexOf_position, Hi, Hb.
  destruct (Z.leb_spec 0 (Z.of_nat i)); [|lia].
  unfold slice, relative_index.
  replace (Z.min (-1) (Z.of_nat i)) with (-1) by lia.
  replace (Z.max (-1) (Z.of_nat i) + 1) with (Z.of_nat (S i)) by lia.
  destruct (Z.ltb_spec (-1) 0); [|lia].
  destruct (Z.ltb_spec (Z.of_nat (S i)) 0); [lia|].
  rewrite Z.max_l, Z.min_l by lia.
  case_bool_decide as E.
  - replace (Z.to_nat (Z.of_nat (length l) + -1)) with i by lia.
    apply take_ge. rewrite length_drop. lia.
  - replace (Z.to_nat (Z.of_nat (S i) - (Z.of_nat (length l) + -1))) with 0%nat by lia.
    reflexivity.
Qed.

(** ** Instances of the further theorems *)

Lemma displayed_permutation_witness :
  store !! 1%positive = Some [T3; T1; T2] /\
  exists ys, displayed never store (Some 1%positive) ReverseChronoSorter times = Some ys /\
             ys ≡ₚ [T3; T1; T2] /\ length ys = length [T3; T1; T2].
Proof.
  split; [reflexivity|].
  exact (displayed_permutation never store 1%positive [T3; T1; T2]
           ReverseChronoSorter times eq_refl).
Defined.

Lemma displayed_in_tab_order_witness :
  store !! 1%positive = Some [T3; T1; T2] /\
  (exists ys, displayed never store (Some 1%positive) TabOrderSorter times = Some ys /\
              StronglySorted window_index_le ys) /\
  (exists ys, displayed never store (Some 1%positive) ReverseTabOrderSorter times = Some ys /\
              StronglySorted (flip window_index_le) ys).
Proof.
  split; [reflexivity|].
  exact (displayed_in_tab_order never store 1%positive [T3; T1; T2] times eq_refl).
Defined.

Lemma displayed_tab_order_stable_witness :
  StronglySorted window_index_le [T1; T2; T0; T3] /\
  displayed never {[ 1%positive := [T1; T2; T0; T3] ]} (Some 1%positive)
    TabOrderSorter times = Some [T1; T2; T0; T3].
Proof.
  assert (H : StronglySorted window_index_le [T1; T2; T0; T3])
    by (repeat constructor; unfold window_index_le; simpl; lia).
  split; [exact H|].
  exact (displayed_tab_order_stable never {[ 1%positive := [T1; T2; T0; T3] ]}
           1%positive [T1; T2; T0; T3] times eq_refl H).
Defined.

Lemma displayed_reverse_mirrors_witness :
  NoDup (tab_place <$> [T3; T1; T2]) /\
  displayed never store (Some 1%positive) ReverseTabOrderSorter times =
  reverse <$> displayed never store (Some 1%positive) TabOrderSorter times.
Proof.
  assert (H : NoDup (tab_place <$> [T3; T1; T2]))
    by compute_done.
  split; [exact H|].
  exact (displayed_reverse_mirrors never store 1%positive [T3; T1; T2] times eq_refl H).
Defined.


Lemma displayed_in_chrono_order_witness :
  Forall (fun x => has_entry times x = true) [T2; T3; T0] /\
  (exists ys, displayed notFirst {[ 1%positive := [T2; T3; T0] ]} (Some 1%positive)
                ChronoSorter times = Some ys /\
              StronglySorted (chrono_le notFirst times) ys) /\
  (exists ys, displayed notFirst {[ 1%positive := [T2; T3; T0] ]} (Some 1%positive)
                ReverseChronoSorter times = Some ys /\
              StronglySorted (flip (chrono_le notFirst times)) ys).
Proof.
  assert (H : Forall (fun x => has_entry times x = true) [T2; T3; T0])
    by (repeat constructor).
  split; [exact H|].
  exact (displayed_in_chrono_order notFirst {[ 1%positive := [T2; T3; T0] ]}
           1%positive [T2; T3; T0] times eq_refl H).
Defined.

Lemma displayed_chrono_without_times_witness :
  Forall (fun x => has_entry ∅ x = false) [T2; T1; T3] /\
  StronglySorted (locked_last never) [T2; T1; T3] /\
  displayed never {[ 1%positive := [T2; T1; T3] ]} (Some 1%positive) ChronoSorter ∅ =
  Some [T2; T1; T3].
Proof.
  assert (H : Forall (fun x => has_entry ∅ x = false) [T2; T1; T3])
    by (repeat constructor).
  assert (H' : StronglySorted (locked_last never) [T2; T1; T3])
    by (repeat constructor; unfold locked_last; simpl; discriminate).
  split; [exact H|]. split; [exact H'|].
  exact (displayed_chrono_without_times never {[ 1%positive := [T2; T1; T3] ]}
           1%positive [T2; T1; T3] ∅ eq_refl H H').
Defined.

Lemma ChronoSorter_strict_order_witness :
  sorts_before (fun x y => ChronoSorter_sort never x y times) T0 T3 /\
  sorts_before (fun x y => ChronoSorter_sort never x y times) T3 T2 /\
  sorts_before (fun x y => ChronoSorter_sort never x y times) T0 T2 /\
  ~ sorts_before (fun x y => ChronoSorter_sort never x y times) T3 T0.
Proof.
  assert (H03 : sorts_before (fun x y => ChronoSorter_sort never x y times) T0 T3)
    by (vm_compute; reflexivity).
  assert (H32 : sorts_before (fun x y => ChronoSorter_sort never x y times) T3 T2)
    by (vm_compute; reflexivity).
  split; [exact H03|]. split; [exact H32|]. split.
  - exact (proj2 (proj2 (ChronoSorter_strict_order never times)) T0 T3 T2 H03 H32).
  - exact (proj1 (proj2 (ChronoSorter_strict_order never times)) T0 T3 H03).
Defined.

Lemma rowIsLocked_iff_witness :
  rowIsLocked listed [T1; T2; T3] (Some lockData) T2 = true /\
  rowIsLocked listed [T1; T2; T3] None T2 = false.
Proof.
  split.
  - apply (proj1 (rowIsLocked_iff listed [T1; T2; T3] lockData T2)).
    exists T2. split; [apply elem_of_cons; right; apply elem_of_cons; left; reflexivity|].
    split; [reflexivity | vm_compute; reflexivity].
  - exact (proj2 (rowIsLocked_iff listed [T1; T2; T3] lockData T2)).
Defined.

Lemma rowIsLocked_distinct_ids_witness :
  NoDup (id <$> [T1; T2; T3]) /\ T1 ∈ [T1; T2; T3] /\
  rowIsLocked listed [T1; T2; T3] (Some lockData) T1 = listed T1 (lockOptions lockData).
Proof.
  assert (H : NoDup (id <$> [T1; T2; T3]))
    by compute_done.
  assert (H' : T1 ∈ [T1; T2; T3]) by (apply elem_of_cons; left; reflexivity).
  split; [exact H|]. split; [exact H'|].
  exact (rowIsLocked_distinct_ids listed [T1; T2; T3] lockData T1 H H').
Defined.

Lemma lockedTabIds_sorter_independent_witness :
  store !! 1%positive = Some [T3; T1; T2] /\
  exists ys, displayed never store (Some 1%positive) ChronoSorter times = Some ys /\
             lockedTabIds listed ys (Some lockData) =
             lockedTabIds listed [T3; T1; T2] (Some lockData).
Proof.
  split; [reflexivity|].
  exact (lockedTabIds_sorter_independent listed never store 1%positive [T3; T1; T2]
           ChronoSorter times (Some lockData) eq_refl).
Defined.

Lemma handleChanged_covers_lockedTabIds_witness :
  handleChanged ({[ "minutesInactive"%string := tt ]} : gmap string unit) "sync" = false /\
  lockedTabIds listed [T1; T2; T3] (Some (<["minutesInactive"%string := [30]]> lockData)) =
  lockedTabIds listed [T1; T2; T3] (Some lockData).
Proof.
  assert (H : handleChanged ({[ "minutesInactive"%string := tt ]} : gmap string unit)
                "sync" = false) by (vm_compute; reflexivity).
  split; [exact H|].
  apply (handleChanged_covers_lockedTabIds listed
           ({[ "minutesInactive"%string := tt ]} : gmap string unit) _ _ _ H).
  intros k Hk. apply lookup_insert_ne. intros <-.
  rewrite lookup_singleton_eq in Hk. discriminate Hk.
Defined.

Lemma session_checkbox_reflects_persistence_witness :
  checkbox_checked
    (run always [ChangeSaveSortOrder true; ClickSorter ChronoSorter;
                 ToggleTab [T1; T2; T3] T2 true false; ToggleSortDropdown;
                 WindowClick true true false]
       (mount (mkSettings None []))) = true.
Proof.
  apply (proj2 (session_checkbox_reflects_persistence always
                  [ChangeSaveSortOrder true; ClickSorter ChronoSorter;
                   ToggleTab [T1; T2; T3] T2 true false; ToggleSortDropdown;
                   WindowClick true true false]
                  (mkSettings None []))).
  eexists. reflexivity.
Defined.

Lemma session_persisted_key_is_active_witness :
  "chrono"%string =
  key (currSorter
         (run always [ChangeSaveSortOrder true; ClickSorter ChronoSorter;
                      ToggleTab [T1; T2; T3] T2 true false]
            (mount (mkSettings None [])))).
Proof.
  exact (session_persisted_key_is_active always
           [ChangeSaveSortOrder true; ClickSorter ChronoSorter;
            ToggleTab [T1; T2; T3] T2 true false]
           (mkSettings None []) "chrono"%string (or_introl eq_refl) eq_refl).
Defined.

Lemma session_remount_restores_witness :
  currSorter
    (mount (settings
              (run always [ClickSorter ReverseChronoSorter; ClickSorter ChronoSorter]
                 (mount (mkSettings (Some "reverseTabOrder"%string) []))))) =
  ChronoSorter.
Proof.
  apply (proj1 (session_remount_restores always
                  [ClickSorter ReverseChronoSorter; ClickSorter ChronoSorter]
                  (mkSettings (Some "reverseTabOrder"%string) [])
                  (or_intror (ex_intro _ ReverseTabOrderSorter eq_refl)))).
  eexists. reflexivity.
Defined.

Lemma click_then_shift_click_witness :
  requests (settings (run notFirst
                        [ToggleTab [T1; T2; T3; T0] T0 true false;
                         ToggleTab [T1; T2; T3; T0] T2 false true] st0)) =
  [UnlockTab 12].
Proof.
  exact (click_then_shift_click notFirst [T1; T2; T3; T0] T0 T2 3%nat 1%nat
           true false st0 eq_refl eq_refl).
Defined.

Lemma tabsToToggle_symmetric_witness :
  tabsToToggle [T1; T2; T3; T0] (Some T2) T0 true =
  tabsToToggle [T1; T2; T3; T0] (Some T0) T2 true.
Proof.
  apply tabsToToggle_symmetric; eexists; reflexivity.
Defined.

Lemma tabsToToggle_range_shape_witness :
  length (tabsToToggle [T1; T2; T3; T0] (Some T0) T2 true) = 3%nat /\
  (exists y, y ∈ tabsToToggle [T1; T2; T3; T0] (Some T0) T2 true /\
             same_object y T0 = true).
Proof.
  pose proof (tabsToToggle_range_shape [T1; T2; T3; T0] T0 T2 3%nat 1%nat
                eq_refl eq_refl) as (H1 & _ & H2 & _).
  split; [exact H1 | exact H2].
Defined.

Lemma tabsToToggle_target_absent_witness :
  tabsToToggle [T1; T2] (Some T2) T3 true = [T2] /\
  tabsToToggle [T1; T2] (Some T1) T3 true = [].
Proof.
  split.
  - exact (tabsToToggle_target_absent [T1; T2] T2 T3 1%nat eq_refl eq_refl).
  - exact (tabsToToggle_target_absent [T1; T2] T1 T3 0%nat eq_refl eq_refl).
Defined.
